(** * GameController: a shallow embedding of [utils/gamecontroller.py]

    The module is a thin wrapper around operating-system facilities: process
    spawn, process enumeration and termination, window lookup and focus, and
    power commands.  The embedding keeps the control flow of the Python
    methods and abstracts the operating system as an arbitrary, stateful
    responder: every library call either returns a value or raises an
    exception, and every call that is issued is recorded in a trace together
    with its answer.

    Modelling choices, all local to this file:
    - the controller instance lives in the machine state ([self]), since a
      Python method receives a reference to a mutable object;
    - [psutil.process_iter] is taken as one snapshot of the process table;
    - every exception class raised by a library call derives from
      [Exception]; asynchronous interrupts are outside the model;
    - a call on a logger either records the message and returns or raises
      without recording; which of the two is the behaviour of the sink,
      a parameter of the methods ([reliable] is the sink that returns). *)

From Stdlib Require Import String Ascii ZArith List Bool Lia DecimalString.
Import ListNotations.

Local Open Scope string_scope.
Local Open Scope Z_scope.

(** ** Python strings *)

Module PyStr.

(** The one-character strings written with an escape in the source. *)
Definition backslash_char : ascii := ascii_of_nat 92.
Definition dquote : string := String (ascii_of_nat 34) EmptyString.

(** [needle in hay] on [str]. *)
Fixpoint contains (needle hay : string) : bool :=
  if String.prefix needle hay then true
  else match hay with
       | EmptyString => false
       | String _ hay' => contains needle hay'
       end.

(** [s.split(sep)] for a separator of one character. *)
Fixpoint split (sep : ascii) (s : string) : list string :=
  match s with
  | EmptyString => [EmptyString]
  | String c s' =>
      if Ascii.eqb c sep then EmptyString :: split sep s'
      else match split sep s' with
           | [] => [String c EmptyString]
           | piece :: pieces => String c piece :: pieces
           end
  end.

(** [l[-1]] on a list that [split] produced (never empty). *)
Definition last_item (l : list string) : string := List.last l EmptyString.

(** [str(n)] for an [int], as an f-string renders it. *)
Definition of_int (n : Z) : string := NilZero.string_of_int (Z.to_int n).

(** Occurrence of a character, used to state what [split] returns. *)
Fixpoint has_char (c : ascii) (s : string) : bool :=
  match s with
  | EmptyString => false
  | String d s' => Ascii.eqb d c || has_char c s'
  end.

End PyStr.

Arguments PyStr.of_int : simpl never.

(** ** Exceptions *)

Inductive exn_class : Type :=
| IndexError
| ValueError
| TypeError
| OSError
| NoSuchProcess
| AccessDenied
| TimeoutExpired
| PywinError
| PlainException.

Record exn : Type := MkExn { exn_cls : exn_class; exn_msg : string }.

(** The two [except] clauses of the source. *)
Inductive except_clause : Type :=
| ExceptException
| ExceptIndexError.

Definition is_IndexError (c : exn_class) : bool :=
  match c with IndexError => true | _ => false end.

(** [isinstance(e, clause)]: every modelled class derives from [Exception]. *)
Definition caught_by (clause : except_clause) (e : exn) : bool :=
  match clause with
  | ExceptException => true
  | ExceptIndexError => is_IndexError (exn_cls e)
  end.

(** [str(e)] *)
Definition str_exn (e : exn) : string := exn_msg e.

Inductive Res (A : Type) : Type :=
| Ok (a : A)
| Raise (e : exn).
Arguments Ok {A} a.
Arguments Raise {A} e.

(** ** Operating-system calls *)

(** An element of [psutil.process_iter(attrs=["pid", "name"])]: psutil
    stores [None] for a name it was denied. *)
Record process_info : Type :=
  MkInfo { info_pid : Z; info_name : option string }.

Inductive os_call : Type -> Type :=
| PathExists (path : string) : os_call bool            (* os.path.exists *)
| System (command : string) : os_call Z                (* os.system *)
| GetLogin : os_call string                            (* os.getlogin *)
| ProcessIter : os_call (list process_info)            (* psutil.process_iter *)
| Username (pid : Z) : os_call string                  (* process.username *)
| NewProcess (pid : Z) : os_call unit                  (* psutil.Process *)
| Terminate (pid : Z) : os_call unit                   (* Process.terminate *)
| Wait (pid : Z) (timeout : Z) : os_call (option Z)    (* Process.wait *)
| FindWindow (cls : option string) (title : string) : os_call Z
| ShowWindow (hwnd : Z) (nCmdShow : Z) : os_call Z
| SetForegroundWindow (hwnd : Z) : os_call Z
| GetClientRect (hwnd : Z) : os_call (Z * Z * Z * Z)
| Sleep (secs : Z) : os_call unit.                     (* time.sleep, secs >= 0 *)

(** A behaviour of the operating system over worlds [W]. *)
Definition OS (W : Type) : Type := forall X, os_call X -> W -> Res X * W.

(** ** Logging *)

Inductive level : Type := DEBUG | INFO | WARNING | ERROR.

Record Logger : Type := MkLogger { logger_name : string }.

(** What a call [logger.<lvl>(message)] does: it returns ([None]) or it
    raises, as a handler or filter of the logger may. *)
Definition Sink : Type := Logger -> level -> string -> option exn.

(** The sinks whose calls always return. *)
Definition reliable : Sink := fun _ _ _ => None.

(** ** Traces *)

Inductive event : Type :=
| Ev {X : Type} (c : os_call X) (r : Res X)
| Log (lg : Logger) (lvl : level) (message : string).

Definition trace := list event.

(** ** The controller *)

Record GameController : Type := MkController {
  game_path : string;
  process_name : string;
  window_name : string;
  window_class : option string;
  logger : option Logger
}.

(** ** The machine: state, exceptions and a trace of what was issued *)

Record state (W : Type) : Type := MkState { self : GameController; world : W }.
Arguments MkState {W} _ _.
Arguments self {W} _.
Arguments world {W} _.

Record run (W A : Type) : Type := MkRun {
  result : Res A;
  final : state W;
  events : trace
}.
Arguments MkRun {W A} _ _ _.
Arguments result {W A} _.
Arguments final {W A} _.
Arguments events {W A} _.

Definition M (W A : Type) : Type := state W -> run W A.

Section Machine.

Context {W : Type}.

Definition ret {A} (a : A) : M W A := fun s => MkRun (Ok a) s [].

Definition raise {A} (e : exn) : M W A := fun s => MkRun (Raise e) s [].

Definition bind {A B} (m : M W A) (k : A -> M W B) : M W B :=
  fun s =>
    match m s with
    | MkRun (Ok a) s1 t1 =>
        match k a s1 with
        | MkRun r s2 t2 => MkRun r s2 (t1 ++ t2)%list
        end
    | MkRun (Raise e) s1 t1 => MkRun (Raise e) s1 t1
    end.

(** [try: body except clause as e: handler e] *)
Definition try_except {A} (body : M W A) (clause : except_clause)
           (handler : exn -> M W A) : M W A :=
  fun s =>
    match body s with
    | MkRun (Ok a) s1 t1 => MkRun (Ok a) s1 t1
    | MkRun (Raise e) s1 t1 =>
        if caught_by clause e then
          match handler e s1 with
          | MkRun r s2 t2 => MkRun r s2 (t1 ++ t2)%list
          end
        else MkRun (Raise e) s1 t1
    end.

(** A library call: the operating system answers and the call is recorded. *)
Definition perform (os : OS W) {X} (c : os_call X) : M W X :=
  fun s =>
    let (r, w') := os X c (world s) in
    MkRun r (MkState (self s) w') [Ev c r].

(** [self.<field>] *)
Definition attr {A} (field : GameController -> A) : M W A :=
  fun s => MkRun (Ok (field (self s))) s [].

(** [logger.<lvl>(message)] on a logger that is present. *)
Definition emit (sink : Sink) (lg : Logger) (lvl : level) (message : string)
  : M W unit :=
  fun s =>
    match sink lg lvl message with
    | None => MkRun (Ok tt) s [Log lg lvl message]
    | Some e => MkRun (Raise e) s []
    end.

(** [for x in xs: body x] *)
Fixpoint for_each {A} (xs : list A) (body : A -> M W unit) : M W unit :=
  match xs with
  | [] => ret tt
  | x :: xs' => bind (body x) (fun _ => for_each xs' body)
  end.

End Machine.

Declare Scope py_scope.
Delimit Scope py_scope with py.
Notation "x <- m ;; k" := (bind m (fun x => k))
  (at level 61, m at next level, right associativity) : py_scope.
Notation "m ;; k" := (bind m (fun _ => k))
  (at level 61, right associativity) : py_scope.
Local Open Scope py_scope.

(** ** The methods of [GameController] *)

Section Controller.

Context {W : Type}.
Variable sink : Sink.
Variable os : OS W.

(** [os.path.normpath] is library code; the constructor is parametric in it. *)
Variable normpath : string -> string.

Definition __init__ (game_path process_name window_name : string)
           (window_class : option string) (logger : option Logger)
  : GameController :=
  {| game_path := normpath game_path;
     process_name := process_name;
     window_name := window_name;
     window_class := window_class;
     logger := logger |}.

Definition log_debug (message : string) : M W unit :=
  lg <- attr logger ;;
  match lg with
  | Some l => emit sink l DEBUG message
  | None => ret tt
  end.

Definition log_info (message : string) : M W unit :=
  lg <- attr logger ;;
  match lg with
  | Some l => emit sink l INFO message
  | None => ret tt
  end.

Definition log_error (message : string) : M W unit :=
  lg <- attr logger ;;
  match lg with
  | Some l => emit sink l ERROR message
  | None => ret tt
  end.

Definition log_warning (message : string) : M W unit :=
  lg <- attr logger ;;
  match lg with
  | Some l => emit sink l WARNING message
  | None => ret tt
  end.

(** The shell command of [start_game]: [cmd /C start], an empty quoted
    window title, then the quoted path. *)
Definition start_command (path : string) : string :=
  "cmd /C start " ++ PyStr.dquote ++ PyStr.dquote ++ " "
    ++ PyStr.dquote ++ path ++ PyStr.dquote.

Definition start_game : M W bool :=
  path <- attr game_path ;;
  found <- perform os (PathExists path) ;;
  if negb found then
    log_error ("游戏路径不存在：" ++ path) ;;
    ret false
  else
    status <- perform os (System (start_command path)) ;;
    if status =? 0 then
      log_info ("游戏启动：" ++ path) ;;
      ret true
    else
      log_error "启动游戏时发生错误" ;;
      ret false.

(** [process.username().split("\")[-1]] *)
Definition strip_domain (owner : string) : string :=
  PyStr.last_item (PyStr.split PyStr.backslash_char owner).

(** The body of the loop over the running processes. *)
Definition terminate_if_matching (target_process_name system_username : string)
           (termination_timeout : Z) (process : process_info) : M W unit :=
  match info_name process with
  | None => raise (MkExn TypeError "argument of type 'NoneType' is not iterable")
  | Some name =>
      if PyStr.contains target_process_name name then
        owner <- perform os (Username (info_pid process)) ;;
        let process_username := strip_domain owner in
        if String.eqb system_username process_username then
          perform os (NewProcess (info_pid process)) ;;
          perform os (Terminate (info_pid process)) ;;
          perform os (Wait (info_pid process) termination_timeout) ;;
          ret tt
        else ret tt
      else ret tt
  end.

Definition terminate_named_process (target_process_name : string)
           (termination_timeout : Z) : M W unit :=
  system_username <- perform os GetLogin ;;
  processes <- perform os ProcessIter ;;
  for_each processes
    (terminate_if_matching target_process_name system_username
                           termination_timeout).

Definition stop_game : M W bool :=
  try_except
    (name <- attr process_name ;;
     terminate_named_process name 10 ;;
     log_info ("游戏终止：" ++ name) ;;
     ret true)
    ExceptException
    (fun e =>
       log_error ("终止游戏时发生错误：" ++ str_exn e) ;;
       ret false).

Definition SW_MINIMIZE : Z := 6.
Definition SW_RESTORE : Z := 9.

Definition toggle_window_state (hwnd : Z) (minimize : bool) : M W unit :=
  let state := if minimize then SW_MINIMIZE else SW_RESTORE in
  perform os (ShowWindow hwnd state) ;;
  ret tt.

Definition set_foreground_window_with_retry (hwnd : Z) : M W unit :=
  toggle_window_state hwnd false ;;
  granted <- perform os (SetForegroundWindow hwnd) ;;
  if granted =? 0 then
    toggle_window_state hwnd true ;;
    toggle_window_state hwnd false ;;
    granted' <- perform os (SetForegroundWindow hwnd) ;;
    if granted' =? 0 then
      raise (MkExn PlainException "Failed to set window foreground")
    else ret tt
  else ret tt.

Definition switch_to_game : M W bool :=
  try_except
    (cls <- attr window_class ;;
     title <- attr window_name ;;
     hwnd <- perform os (FindWindow cls title) ;;
     if hwnd =? 0 then
       log_debug "游戏窗口未找到" ;;
       ret false
     else
       set_foreground_window_with_retry hwnd ;;
       log_info "游戏窗口已切换到前台" ;;
       ret true)
    ExceptException
    (fun e =>
       log_error ("激活游戏窗口时发生错误：" ++ str_exn e) ;;
       ret false).

Definition get_resolution : M W (option (Z * Z)) :=
  try_except
    (cls <- attr window_class ;;
     title <- attr window_name ;;
     hwnd <- perform os (FindWindow cls title) ;;
     if hwnd =? 0 then
       log_debug "游戏窗口未找到" ;;
       ret None
     else
       rect <- perform os (GetClientRect hwnd) ;;
       let '(_, _, window_width, window_height) := rect in
       ret (Some (window_width, window_height)))
    ExceptIndexError
    (fun _ =>
       log_debug "游戏窗口未找到" ;;
       ret None).

(** [time.sleep(secs)]: a negative argument is rejected before any wait. *)
Definition time_sleep (secs : Z) : M W unit :=
  if secs <? 0 then
    raise (MkExn ValueError "sleep length must be non-negative")
  else perform os (Sleep secs).

Definition power_actions : list string := ["Shutdown"; "Hibernate"; "Sleep"].

(** [x in xs] on a list of strings. *)
Definition str_in (x : string) (xs : list string) : bool :=
  existsb (String.eqb x) xs.

Definition shutdown (action : string) (delay : Z) : M W bool :=
  stop_game ;;
  if negb (str_in action power_actions) then ret true
  else
    log_warning ("将在" ++ PyStr.of_int delay ++ "秒后开始执行系统操作：" ++ action) ;;
    time_sleep delay ;;
    try_except
      ((if String.eqb action "Shutdown" then
          perform os (System "shutdown /s /t 0") ;; ret tt
        else if String.eqb action "Sleep" then
          perform os (System "powercfg -h off") ;;
          perform os (System "rundll32.exe powrprof.dll,SetSuspendState 0,1,0") ;;
          perform os (System "powercfg -h on") ;;
          ret tt
        else if String.eqb action "Hibernate" then
          perform os (System "shutdown /h") ;; ret tt
        else ret tt) ;;
       log_info ("执行系统操作：" ++ action) ;;
       ret true)
      ExceptException
      (fun e =>
         log_error ("执行系统操作时发生错误：" ++ action ++ ", 错误：" ++ str_exn e) ;;
         ret false).

End Controller.

(** ** Observations on traces *)

(** The commands handed to [os.system], in the order they were issued. *)
Definition system_command (e : event) : option string :=
  match e with
  | Ev (System command) _ => Some command
  | _ => None
  end.

(** The pids that received [terminate()]. *)
Definition terminated_pid (e : event) : option Z :=
  match e with
  | Ev (Terminate pid) _ => Some pid
  | _ => None
  end.

(** Window-control calls: [ShowWindow] and [SetForegroundWindow]. *)
Inductive window_control : Type :=
| Show (hwnd : Z) (nCmdShow : Z)
| Focus (hwnd : Z) (answer : Res Z).

Definition window_control_of (e : event) : option window_control :=
  match e with
  | Ev (ShowWindow hwnd n) _ => Some (Show hwnd n)
  | Ev (SetForegroundWindow hwnd) r => Some (Focus hwnd r)
  | _ => None
  end.

Definition geometry_query (e : event) : option Z :=
  match e with
  | Ev (GetClientRect hwnd) _ => Some hwnd
  | _ => None
  end.

Definition slept (e : event) : option Z :=
  match e with
  | Ev (Sleep secs) _ => Some secs
  | _ => None
  end.

Definition logged (e : event) : option (level * string) :=
  match e with
  | Log _ lvl message => Some (lvl, message)
  | _ => None
  end.

(** An exception raised by the delay sleep or by a power command. *)
Definition power_failure (e : event) : option exn :=
  match e with
  | Ev (Sleep _) (Raise x) => Some x
  | Ev (System _) (Raise x) => Some x
  | _ => None
  end.

Definition is_os_event (e : event) : bool :=
  match e with
  | Ev _ _ => true
  | Log _ _ _ => false
  end.

(** [collect f t]: the observations [f] makes along [t], in order. *)
Fixpoint collect {A} (f : event -> option A) (t : trace) : list A :=
  match t with
  | [] => []
  | e :: t' =>
      match f e with
      | Some a => a :: collect f t'
      | None => collect f t'
      end
  end.

Definition system_commands : trace -> list string := collect system_command.
Definition terminated : trace -> list Z := collect terminated_pid.
Definition window_controls : trace -> list window_control := collect window_control_of.
Definition geometry_queries : trace -> list Z := collect geometry_query.
Definition sleeps : trace -> list Z := collect slept.
Definition log_lines : trace -> list (level * string) := collect logged.
Definition os_events (t : trace) : trace := filter is_os_event t.

(** [issued_after_delay delay commands t]: along [t] the sleep of [delay]
    seconds returned, no shell command precedes it, and the shell commands
    that follow it are exactly [commands], in this order. *)
Definition issued_after_delay (delay : Z) (commands : list string) (t : trace)
  : Prop :=
  exists pre post,
    t = (pre ++ Ev (Sleep delay) (Ok tt) :: post)%list /\
    system_commands pre = [] /\
    system_commands post = commands.

(** The two predicates of [terminate_named_process], for a process table
    whose owners are resolved by [owner]. *)
Definition owned_by (login : string) (owner : Res string) : bool :=
  match owner with
  | Ok u => String.eqb login (strip_domain u)
  | Raise _ => false
  end.

(** [target in name], for the names that can be read. *)
Definition name_contains (target : string) (name : option string) : bool :=
  match name with
  | Some n => PyStr.contains target n
  | None => false
  end.

Definition should_terminate (target login : string) (owner : Z -> Res string)
           (p : process_info) : bool :=
  name_contains target (info_name p) && owned_by login (owner (info_pid p)).



(** The same controller with another logger. *)
Definition set_logger (lg : option Logger) (c : GameController) : GameController :=
  {| game_path := game_path c;
     process_name := process_name c;
     window_name := window_name c;
     window_class := window_class c;
     logger := lg |}.

Definition with_logger {W} (lg : option Logger) (s : state W) : state W :=
  MkState (set_logger lg (self s)) (world s).

(** ** Properties of computations *)

(** A computation is [quiet] for an observation when no run of it makes
    that observation. *)
Definition quiet {W A B} (f : event -> option B) (m : M W A) : Prop :=
  forall s, collect f (events (m s)) = [].

(** A computation [preserves_self] when it leaves the controller object as
    it found it. *)
Definition preserves_self {W A} (m : M W A) : Prop :=
  forall s, self (final (m s)) = self s.

(** Two states that differ at most in the [logger] field. *)
Definition same_identity {W} (s1 s2 : state W) : Prop :=
  set_logger None (self s1) = set_logger None (self s2) /\
  world s1 = world s2.

(** A computation is [logger_blind] when, from two such states, it returns
    the same result, makes the same library calls with the same answers,
    and ends in two such states. *)
Definition logger_blind {W A} (m : M W A) : Prop :=
  forall s1 s2,
    same_identity s1 s2 ->
    result (m s1) = result (m s2) /\
    os_events (events (m s1)) = os_events (events (m s2)) /\
    same_identity (final (m s1)) (final (m s2)).

(** ** A simulated host, to run the methods on concrete inputs *)

Module Host.

Record t : Type := Mk {
  files : list string;                    (* paths that exist *)
  login : string;                         (* os.getlogin() *)
  table : list (process_info * string);   (* processes with their owners *)
  stubborn : list Z;                      (* pids whose wait() times out *)
  window : Z;                             (* what FindWindow answers *)
  focus : list Z;                         (* answers of successive focus requests *)
  rect : Res (Z * Z * Z * Z);             (* what GetClientRect answers *)
  spawn : Res Z                           (* what os.system answers *)
}.

Definition mem_str (x : string) (xs : list string) : bool :=
  existsb (String.eqb x) xs.

Definition mem_Z (x : Z) (xs : list Z) : bool := existsb (Z.eqb x) xs.

Fixpoint owner_of (pid : Z) (tbl : list (process_info * string)) : Res string :=
  match tbl with
  | [] => Raise (MkExn NoSuchProcess "process no longer exists")
  | (p, u) :: tbl' => if info_pid p =? pid then Ok u else owner_of pid tbl'
  end.

Definition os : OS t :=
  fun X c =>
    match c in os_call X return t -> Res X * t with
    | PathExists path => fun h => (Ok (mem_str path (files h)), h)
    | System _ => fun h => (spawn h, h)
    | GetLogin => fun h => (Ok (login h), h)
    | ProcessIter => fun h => (Ok (map fst (table h)), h)
    | Username pid => fun h => (owner_of pid (table h), h)
    | NewProcess _ => fun h => (Ok tt, h)
    | Terminate _ => fun h => (Ok tt, h)
    | Wait pid _ => fun h =>
        if mem_Z pid (stubborn h)
        then (Raise (MkExn TimeoutExpired "timeout after 10 seconds"), h)
        else (Ok (Some 0), h)
    | FindWindow _ _ => fun h => (Ok (window h), h)
    | ShowWindow _ _ => fun h => (Ok 1, h)
    | SetForegroundWindow _ => fun h =>
        match focus h with
        | [] => (Ok 0, h)
        | a :: rest =>
            (Ok a, Mk (files h) (login h) (table h) (stubborn h) (window h)
                      rest (rect h) (spawn h))
        end
    | GetClientRect _ => fun h => (rect h, h)
    | Sleep _ => fun h => (Ok tt, h)
    end.

(** A host with the game installed and running under the current user. *)
Definition pc : t :=
  Mk ["C:\Game\StarRail.exe"]
     "trailblazer"
     [ (MkInfo 4 (Some "System"), "NT AUTHORITY\SYSTEM");
       (MkInfo 100 (Some "StarRail.exe"), "DESKTOP\trailblazer");
       (MkInfo 101 (Some "StarRail.exe"), "DESKTOP\guest");
       (MkInfo 102 (Some "StarRailLauncher.exe"), "trailblazer");
       (MkInfo 103 (Some "explorer.exe"), "DESKTOP\trailblazer") ]
     []
     4242
     [0; 1]
     (Ok (0, 0, 1920, 1080))
     (Ok 0).

(** The game is not installed. *)
Definition uninstalled : t :=
  Mk [] (login pc) (table pc) (stubborn pc) (window pc) (focus pc) (rect pc)
     (spawn pc).

(** The game is not running: no process, no window. *)
Definition idle : t :=
  Mk (files pc) (login pc)
     [ (MkInfo 4 (Some "System"), "NT AUTHORITY\SYSTEM");
       (MkInfo 103 (Some "explorer.exe"), "DESKTOP\trailblazer") ]
     [] 0 [] (rect pc) (spawn pc).


(** The window is destroyed between the lookup and the geometry query. *)
Definition closing : t :=
  Mk (files pc) (login pc) (table pc) (stubborn pc) (window pc) (focus pc)
     (Raise (MkExn PywinError "(1400, 'GetClientRect', 'Invalid window handle.')"))
     (spawn pc).

(** [pc] after its first, refused, focus request, and after the second. *)
Definition refocused : t :=
  Mk (files pc) (login pc) (table pc) (stubborn pc) (window pc) [1] (rect pc)
     (spawn pc).

Definition focused : t :=
  Mk (files pc) (login pc) (table pc) (stubborn pc) (window pc) [] (rect pc)
     (spawn pc).

(** The name of process 101 cannot be read. *)
Definition guarded : t :=
  Mk (files pc) (login pc)
     [ (MkInfo 4 (Some "System"), "NT AUTHORITY\SYSTEM");
       (MkInfo 100 (Some "StarRail.exe"), "DESKTOP\trailblazer");
       (MkInfo 101 None, "NT AUTHORITY\SYSTEM");
       (MkInfo 102 (Some "StarRailLauncher.exe"), "trailblazer") ]
     (stubborn pc) (window pc) (focus pc) (rect pc) (spawn pc).

(** A host whose answers never change: those of [h]. *)
Definition frozen (h : t) : OS unit :=
  fun X c _ => (fst (os X c h), tt).

Definition owner (h : t) (pid : Z) : Res string := owner_of pid (table h).

Definition controller (lg : option Logger) : GameController :=
  MkController "C:\Game\StarRail.exe" "StarRail" "Honkai: Star Rail"
               (Some "UnityWndClass") lg.

Definition console : Logger := MkLogger "console".

Definition boot (h : t) (lg : option Logger) : state t :=
  MkState (controller lg) h.

End Host.

(** ** Further observations and scenarios *)

(** The pids whose owner was queried, whose handle was opened, and the
    waits with their timeout. *)
Definition owner_query (e : event) : option Z :=
  match e with
  | Ev (Username pid) _ => Some pid
  | _ => None
  end.

Definition opened_pid (e : event) : option Z :=
  match e with
  | Ev (NewProcess pid) _ => Some pid
  | _ => None
  end.

Definition waited (e : event) : option (Z * Z) :=
  match e with
  | Ev (Wait pid timeout) _ => Some (pid, timeout)
  | _ => None
  end.

(** A shell command together with whether [os.system] returned. *)
Definition shell_call (e : event) : option (string * bool) :=
  match e with
  | Ev (System command) (Ok _) => Some (command, true)
  | Ev (System command) (Raise _) => Some (command, false)
  | _ => None
  end.

Definition owner_queries : trace -> list Z := collect owner_query.
Definition opened : trace -> list Z := collect opened_pid.
Definition waits : trace -> list (Z * Z) := collect waited.
Definition shell_calls : trace -> list (string * bool) := collect shell_call.

(** [l1] is an initial segment of [l2]. *)
Definition prefix_of {A} (l1 l2 : list A) : Prop :=
  exists n, l1 = firstn n l2.

(** A computation is [orderly] for a wait timeout when, in every run, each
    signal goes to a handle that was opened, each wait follows the signal
    to the same pid and uses that timeout, and a run that returns has
    waited for every process it opened. *)
Definition orderly {W A} (timeout : Z) (m : M W A) : Prop :=
  forall s,
    let t := events (m s) in
    let expected := map (fun pid => (pid, timeout)) (terminated t) in
    prefix_of (terminated t) (opened t) /\
    prefix_of (waits t) expected /\
    (forall a, result (m s) = Ok a ->
               terminated t = opened t /\ waits t = expected).

(** A computation is [mute] when, started without a logger, it logs
    nothing and ends without a logger. *)
Definition mute {W A} (m : M W A) : Prop :=
  forall s,
    logger (self s) = None ->
    log_lines (events (m s)) = [] /\ logger (self (final (m s))) = None.

(** A boolean outcome is [logged_once] when the run logged exactly one
    line: at info level for true, at error or debug level for false; a run
    that raised logged nothing. *)
Definition logged_once {W} (r : run W bool) : Prop :=
  match result r with
  | Ok true => exists message, log_lines (events r) = [(INFO, message)]
  | Ok false =>
      exists message,
        log_lines (events r) = [(ERROR, message)] \/
        log_lines (events r) = [(DEBUG, message)]
  | Raise _ => log_lines (events r) = []
  end.

Module Scenario.

(** A host without a login session: [os.getlogin] fails. *)
Definition no_login : OS Host.t :=
  fun X c =>
    match c in os_call X return Host.t -> Res X * Host.t with
    | GetLogin => fun h =>
        (Raise (MkExn OSError "[Errno 6] No such device or address"), h)
    | c' => Host.os _ c'
    end.

(** A host on which a failed window lookup raises instead of answering 0. *)
Definition lookup_raises : OS Host.t :=
  fun X c =>
    match c in os_call X return Host.t -> Res X * Host.t with
    | FindWindow _ _ => fun h =>
        (Raise (MkExn PywinError "(2, 'FindWindow', 'The system cannot find the file specified.')"), h)
    | c' => Host.os _ c'
    end.

(** A host on which the suspend request cannot be dispatched. *)
Definition suspend_fails : OS Host.t :=
  fun X c =>
    match c in os_call X return Host.t -> Res X * Host.t with
    | System command => fun h =>
        if String.eqb command "rundll32.exe powrprof.dll,SetSuspendState 0,1,0"
        then (Raise (MkExn OSError "cannot start rundll32.exe"), h)
        else (Ok 0, h)
    | c' => Host.os _ c'
    end.

(** A sink whose handler cannot write. *)
Definition broken : Sink :=
  fun _ _ _ => Some (MkExn OSError "[Errno 28] No space left on device").

(** A controller bound to an empty process name. *)
Definition nameless : GameController :=
  MkController "C:\Game\StarRail.exe" "" "Honkai: Star Rail"
               (Some "UnityWndClass") None.

End Scenario.

(** * Properties *)

(** ** Python strings *)



Lemma split_nonempty (sep : ascii) (s : string) : PyStr.split sep s <> [].
Proof.
  destruct s as [|c s]; cbn; [discriminate|].
  destruct (Ascii.eqb c sep); [discriminate|].
  destruct (PyStr.split sep s); discriminate.
Qed.

Lemma split_plain (sep : ascii) (s : string) :
  PyStr.has_char sep s = false -> PyStr.split sep s = [s].
Proof.
  induction s as [|c s IH]; cbn; [reflexivity|].
  destruct (Ascii.eqb c sep); cbn; [discriminate|].
  intros H. rewrite (IH H). reflexivity.
Qed.

(** [(d + sep + u).split(sep) == d.split(sep) + u.split(sep)] *)
Lemma split_app (sep : ascii) (d u : string) :
  PyStr.split sep (d ++ String sep u)
  = (PyStr.split sep d ++ PyStr.split sep u)%list.
Proof.
  induction d as [|c d IH]; cbn.
  - rewrite Ascii.eqb_refl. reflexivity.
  - rewrite IH. destruct (Ascii.eqb c sep); [reflexivity|].
    pose proof (split_nonempty sep d) as Hne.
    destruct (PyStr.split sep d); [contradiction | reflexivity].
Qed.

Lemma last_app_nonempty {A} (l1 l2 : list A) (d : A) :
  l2 <> [] -> List.last (l1 ++ l2) d = List.last l2 d.
Proof.
  intros H. induction l1 as [|x l1 IH]; cbn; [reflexivity|].
  destruct (l1 ++ l2)%list eqn:E; [|exact IH].
  apply app_eq_nil in E. destruct E as [_ E]. contradiction.
Qed.

(** The owner name with its domain prefix stripped: [DOMAIN\user] gives
    [user], and a name without a backslash is kept. *)
Lemma strip_domain_qualified (domain user : string) :
  PyStr.has_char PyStr.backslash_char user = false ->
  strip_domain (domain ++ String PyStr.backslash_char user) = user.
Proof.
  intros H. unfold strip_domain, PyStr.last_item.
  rewrite split_app, last_app_nonempty by apply split_nonempty.
  rewrite (split_plain _ _ H). reflexivity.
Qed.

Lemma strip_domain_plain (user : string) :
  PyStr.has_char PyStr.backslash_char user = false ->
  strip_domain user = user.
Proof.
  intros H. unfold strip_domain, PyStr.last_item.
  rewrite (split_plain _ _ H). reflexivity.
Qed.

(** A string in which [c] occurs splits at the last occurrence. *)
Lemma last_occurrence (c : ascii) (s : string) :
  PyStr.has_char c s = true ->
  exists d u, s = d ++ String c u /\ PyStr.has_char c u = false.
Proof.
  induction s as [|x s IH]; cbn; [discriminate|].
  destruct (PyStr.has_char c s) eqn:Hrest.
  - intros _. destruct (IH eq_refl) as [d [u [Hs Hu]]].
    exists (String x d), u. split; [cbn; f_equal; exact Hs | exact Hu].
  - rewrite orb_false_r. intros Hx. apply Ascii.eqb_eq in Hx. subst x.
    exists EmptyString, s. split; [reflexivity | exact Hrest].
Qed.



(** The strings of the simulated host, through the Python operations. *)
Example contains_launcher :
  PyStr.contains "StarRail" "StarRailLauncher.exe" = true.
Proof. reflexivity. Qed.

Example contains_is_case_sensitive :
  PyStr.contains "StarRail" "starrail.exe" = false.
Proof. reflexivity. Qed.

Example strip_domain_of_qualified_owner :
  strip_domain "DESKTOP\trailblazer" = "trailblazer".
Proof. reflexivity. Qed.

Example of_int_negative : PyStr.of_int (-1) = "-1".
Proof. reflexivity. Qed.

(** ** Observations distribute over concatenation *)

Lemma collect_app {A} (f : event -> option A) (t1 t2 : trace) :
  collect f (t1 ++ t2)%list = (collect f t1 ++ collect f t2)%list.
Proof.
  induction t1 as [|e t1 IH]; simpl; [reflexivity|].
  destruct (f e); simpl; rewrite IH; reflexivity.
Qed.

(** ** Sequencing *)

Section Sequencing.

Context {W : Type}.

Lemma bind_ok {A B} (m : M W A) (k : A -> M W B) (s : state W) (a : A) :
  result (m s) = Ok a ->
  bind m k s =
  MkRun (result (k a (final (m s)))) (final (k a (final (m s))))
        (events (m s) ++ events (k a (final (m s))))%list.
Proof.
  unfold bind. destruct (m s) as [[x|x] s1 t1]; cbn; intros H; inversion H.
  subst. destruct (k a s1). reflexivity.
Qed.

Lemma bind_raise {A B} (m : M W A) (k : A -> M W B) (s : state W) (e : exn) :
  result (m s) = Raise e ->
  bind m k s = MkRun (Raise e) (final (m s)) (events (m s)).
Proof.
  unfold bind. destruct (m s) as [[x|x] s1 t1]; cbn; intros H; inversion H.
  reflexivity.
Qed.

Variable B : Type.
Variable f : event -> option B.

Lemma quiet_ret {A} (a : A) : quiet f (@ret W A a).
Proof. intros s. reflexivity. Qed.

Lemma quiet_raise {A} (e : exn) : quiet f (@raise W A e).
Proof. intros s. reflexivity. Qed.

Lemma quiet_attr {A} (field : GameController -> A) :
  quiet f (@attr W A field).
Proof. intros s. reflexivity. Qed.

Lemma quiet_bind {A C} (m : M W A) (k : A -> M W C) :
  quiet f m -> (forall a, quiet f (k a)) -> quiet f (bind m k).
Proof.
  intros Hm Hk s. unfold bind.
  specialize (Hm s). destruct (m s) as [[a|e] s1 t1]; cbn in *.
  - specialize (Hk a s1). destruct (k a s1) as [r s2 t2]. cbn in *.
    rewrite collect_app, Hm, Hk. reflexivity.
  - exact Hm.
Qed.

Lemma quiet_try {A} (body : M W A) (clause : except_clause)
      (handler : exn -> M W A) :
  quiet f body -> (forall e, quiet f (handler e)) ->
  quiet f (try_except body clause handler).
Proof.
  intros Hb Hh s. unfold try_except.
  specialize (Hb s). destruct (body s) as [[a|e] s1 t1]; cbn in *.
  - exact Hb.
  - destruct (caught_by clause e); cbn; [|exact Hb].
    specialize (Hh e s1). destruct (handler e s1) as [r s2 t2]. cbn in *.
    rewrite collect_app, Hb, Hh. reflexivity.
Qed.

Lemma quiet_emit (sink : Sink) (lg : Logger) (lvl : level) (message : string) :
  f (Log lg lvl message) = None -> quiet f (@emit W sink lg lvl message).
Proof.
  intros H s. unfold emit. destruct (sink lg lvl message); cbn;
    [reflexivity | rewrite H; reflexivity].
Qed.

Lemma quiet_perform (os : OS W) {X} (c : os_call X) :
  (forall r, f (Ev c r) = None) -> quiet f (perform os c).
Proof.
  intros H s. unfold perform.
  destruct (os X c (world s)) as [r w']. cbn. rewrite H. reflexivity.
Qed.

Lemma quiet_for_each {A} (xs : list A) (body : A -> M W unit) :
  (forall x, quiet f (body x)) -> quiet f (for_each xs body).
Proof.
  intros H. induction xs as [|x xs IH]; cbn.
  - apply quiet_ret.
  - apply quiet_bind; [apply H | intros _; exact IH].
Qed.

End Sequencing.

(** ** Frame: the controller object *)

Section Frame.

Context {W : Type}.

Lemma frame_ret {A} (a : A) : preserves_self (@ret W A a).
Proof. intros s. reflexivity. Qed.

Lemma frame_raise {A} (e : exn) : preserves_self (@raise W A e).
Proof. intros s. reflexivity. Qed.

Lemma frame_attr {A} (field : GameController -> A) :
  preserves_self (@attr W A field).
Proof. intros s. reflexivity. Qed.

Lemma frame_emit (sink : Sink) (lg : Logger) (lvl : level) (message : string) :
  preserves_self (@emit W sink lg lvl message).
Proof. intros s. unfold emit. destruct (sink lg lvl message); reflexivity. Qed.

Lemma frame_perform (os : OS W) {X} (c : os_call X) :
  preserves_self (perform os c).
Proof.
  intros s. unfold perform. destruct (os X c (world s)). reflexivity.
Qed.

Lemma frame_bind {A C} (m : M W A) (k : A -> M W C) :
  preserves_self m -> (forall a, preserves_self (k a)) ->
  preserves_self (bind m k).
Proof.
  intros Hm Hk s. unfold bind.
  specialize (Hm s). destruct (m s) as [[a|e] s1 t1]; cbn in *.
  - specialize (Hk a s1). destruct (k a s1) as [r s2 t2]. cbn in *.
    congruence.
  - exact Hm.
Qed.

Lemma frame_try {A} (body : M W A) (clause : except_clause)
      (handler : exn -> M W A) :
  preserves_self body -> (forall e, preserves_self (handler e)) ->
  preserves_self (try_except body clause handler).
Proof.
  intros Hb Hh s. unfold try_except.
  specialize (Hb s). destruct (body s) as [[a|e] s1 t1]; cbn in *.
  - exact Hb.
  - destruct (caught_by clause e); cbn; [|exact Hb].
    specialize (Hh e s1). destruct (handler e s1) as [r s2 t2]. cbn in *.
    congruence.
Qed.

Lemma frame_for_each {A} (xs : list A) (body : A -> M W unit) :
  (forall x, preserves_self (body x)) -> preserves_self (for_each xs body).
Proof.
  intros H. induction xs as [|x xs IH]; cbn.
  - apply frame_ret.
  - apply frame_bind; [apply H | intros _; exact IH].
Qed.

End Frame.

(** ** Independence from the logger *)

Section Blind.

Context {W : Type}.

Lemma blind_ret {A} (a : A) : logger_blind (@ret W A a).
Proof. intros s1 s2 H. cbn. auto. Qed.

Lemma blind_raise {A} (e : exn) : logger_blind (@raise W A e).
Proof. intros s1 s2 H. cbn. auto. Qed.

(** Reading a field other than [logger]. *)
Lemma blind_attr {A} (field : GameController -> A) :
  (forall c, field (set_logger None c) = field c) ->
  logger_blind (@attr W A field).
Proof.
  intros Hf s1 s2 H. cbn. repeat split; try apply H.
  rewrite <- (Hf (self s1)), <- (Hf (self s2)).
  destruct H as [-> _]. reflexivity.
Qed.

(** The four log helpers share this shape: emit when a logger is there. *)
Lemma blind_log (sink : Sink) (lvl : level) (message : string) :
  (forall l lvl' m, sink l lvl' m = None) ->
  logger_blind (W := W)
    (bind (attr logger)
          (fun lg => match lg with
                     | Some l => emit sink l lvl message
                     | None => ret tt
                     end)).
Proof.
  intros Hsink s1 s2 H. unfold bind, attr, emit, ret. cbn.
  destruct (logger (self s1)), (logger (self s2)); cbn;
    rewrite ?Hsink; cbn; auto.
Qed.

Lemma blind_perform (os : OS W) {X} (c : os_call X) :
  logger_blind (perform os c).
Proof.
  intros s1 s2 [Hself Hworld]. unfold perform. rewrite Hworld.
  destruct (os X c (world s2)) as [r w']. cbn.
  repeat split. exact Hself.
Qed.

Lemma blind_bind {A C} (m : M W A) (k : A -> M W C) :
  logger_blind m -> (forall a, logger_blind (k a)) -> logger_blind (bind m k).
Proof.
  intros Hm Hk s1 s2 H. unfold bind.
  destruct (Hm s1 s2 H) as [Hr [He Hs]].
  destruct (m s1) as [[a1|e1] s1' t1], (m s2) as [[a2|e2] s2' t2];
    cbn in *; try discriminate.
  - inversion Hr; subst a2.
    destruct (Hk a1 s1' s2' Hs) as [Hr' [He' Hs']].
    destruct (k a1 s1') as [r1 u1 v1], (k a1 s2') as [r2 u2 v2]. cbn in *.
    unfold os_events in *. rewrite !filter_app, He, He'.
    split; [assumption | split; [reflexivity | assumption]].
  - inversion Hr; subst e2.
    split; [reflexivity | split; assumption].
Qed.

Lemma blind_try {A} (body : M W A) (clause : except_clause)
      (handler : exn -> M W A) :
  logger_blind body -> (forall e, logger_blind (handler e)) ->
  logger_blind (try_except body clause handler).
Proof.
  intros Hb Hh s1 s2 H. unfold try_except.
  destruct (Hb s1 s2 H) as [Hr [He Hs]].
  destruct (body s1) as [[a1|e1] s1' t1], (body s2) as [[a2|e2] s2' t2];
    cbn in *; try discriminate.
  - split; [assumption | split; assumption].
  - inversion Hr; subst e2.
    destruct (caught_by clause e1); cbn; [|split; [assumption | split; assumption]].
    destruct (Hh e1 s1' s2' Hs) as [Hr' [He' Hs']].
    destruct (handler e1 s1') as [r1 u1 v1], (handler e1 s2') as [r2 u2 v2].
    cbn in *. unfold os_events in *. rewrite !filter_app, He, He'.
    split; [assumption | split; [reflexivity | assumption]].
Qed.

Lemma blind_for_each {A} (xs : list A) (body : A -> M W unit) :
  (forall x, logger_blind (body x)) -> logger_blind (for_each xs body).
Proof.
  intros H. induction xs as [|x xs IH]; cbn.
  - apply blind_ret.
  - apply blind_bind; [apply H | intros _; exact IH].
Qed.

End Blind.

Section Methods.

Context {W : Type}.
Variable os : OS W.

(** Case analysis on the answer of the next library call in the goal. *)
Ltac os_step :=
  match goal with
  | |- context [os ?X ?c ?w] =>
      let a := fresh "a" in
      let e := fresh "e" in
      let w' := fresh "w" in
      let E := fresh "E" in
      destruct (os X c w) as [[a|e] w'] eqn:E; cbn
  end.

Ltac unfold_methods :=
  unfold start_game, stop_game, switch_to_game, get_resolution, shutdown,
    set_foreground_window_with_retry, toggle_window_state, time_sleep,
    log_debug, log_info, log_error, log_warning,
    try_except, bind, attr, perform, emit, ret, raise.

Lemma issued_after_delay_intro (delay : Z) (t0 logs post : trace)
      (commands : list string) :
  system_commands t0 = [] ->
  system_commands logs = [] ->
  system_commands post = commands ->
  issued_after_delay delay commands
    (t0 ++ logs ++ Ev (Sleep delay) (Ok tt) :: post)%list.
Proof.
  intros H0 Hl Hp. exists (t0 ++ logs)%list, post.
  rewrite <- app_assoc. split; [reflexivity|]. split; [|exact Hp].
  unfold system_commands in *. rewrite collect_app, H0, Hl. reflexivity.
Qed.

(** Closes a [quiet] goal about straight-line code. *)
Ltac quiet_step :=
  first
    [ apply quiet_ret
    | apply quiet_raise
    | apply quiet_attr
    | apply quiet_emit; reflexivity
    | apply quiet_perform; intros [?|?]; reflexivity
    | apply quiet_bind; [|intro]
    | apply quiet_try; [|intro]
    | apply quiet_for_each; intro
    | match goal with
      | |- quiet _ (if ?b then _ else _) => destruct b
      | |- quiet _ (match ?o with Some _ => _ | None => _ end) => destruct o
      | |- quiet _ (let '(_, _) := ?p in _) => destruct p
      end
    | progress unfold stop_game, terminate_named_process,
        terminate_if_matching ].

Ltac quiet_auto :=
  unfold start_game, stop_game, switch_to_game, get_resolution,
    terminate_named_process, terminate_if_matching,
    set_foreground_window_with_retry,
    toggle_window_state, log_debug, log_info, log_error, log_warning;
  repeat quiet_step.

(** ** [stop_game]: always a boolean, and only process calls *)

Lemma stop_game_returns (s : state W) :
  exists b, result (stop_game reliable os s) = Ok b.
Proof.
  unfold stop_game, try_except.
  destruct (bind _ _ s) as [[b|e] s1 t1]; [exists b; reflexivity|].
  cbn. exists false.
  unfold log_error, bind, attr, emit, ret. cbn.
  destruct (logger (self s1)); reflexivity.
Qed.

Lemma stop_game_no_shell : quiet system_command (stop_game reliable os).
Proof. quiet_auto. Qed.

Lemma stop_game_no_sleep : quiet slept (stop_game reliable os).
Proof. quiet_auto. Qed.

Lemma stop_game_no_power_failure : quiet power_failure (stop_game reliable os).
Proof. quiet_auto. Qed.

(** C5. [start_game] returns false, having made no other library call
    than the path check, when the bound path does not exist.  When it
    exists, exactly one command is handed to the shell: [cmd /C start],
    an empty quoted title and the quoted path; if the shell returns exit
    status [status], the method returns [status == 0], the path check and
    this command are its only library calls, and the host is left as the
    shell left it. *)
Theorem start_game_spawn_policy (s : state W) (found : bool) (w1 : W) :
  os _ (PathExists (game_path (self s))) (world s) = (Ok found, w1) ->
  let r := start_game reliable os s in
  let path := game_path (self s) in
  let quote := String (ascii_of_nat 34) EmptyString in
  let command :=
    "cmd /C start " ++ quote ++ quote ++ " " ++ quote ++ path ++ quote in
  if found then
    system_commands (events r) = [command] /\
    (forall status w2,
        os _ (System command) w1 = (Ok status, w2) ->
        result r = Ok (status =? 0) /\
        os_events (events r)
        = [Ev (PathExists path) (Ok true); Ev (System command) (Ok status)] /\
        world (final r) = w2)
  else
    result r = Ok false /\
    system_commands (events r) = [] /\
    os_events (events r) = [Ev (PathExists path) (Ok false)] /\
    world (final r) = w1.
Proof.
  intros Hfound r path quote command. subst r path quote command.
  destruct s as [[gp pn wn wc lg] w0]. cbn in Hfound.
  unfold_methods. unfold start_command, PyStr.dquote.
  cbn. rewrite Hfound. cbn.
  destruct found; cbn.
  - split.
    + os_step; [destruct (a =? 0)|]; cbn; destruct lg; reflexivity.
    + intros status w2 Hspawn. rewrite Hspawn. cbn.
      destruct (status =? 0); cbn; destruct lg; cbn; repeat split.
  - destruct lg; cbn; repeat split.
Qed.

(** C7. When the window lookup answers handle zero, [switch_to_game]
    returns false and [get_resolution] returns [None]; in both, the lookup
    is the only library call of the run: no [ShowWindow], no
    [SetForegroundWindow], no [GetClientRect]. *)
Theorem absent_window_is_not_touched (s : state W) (w1 : W) :
  let lookup := FindWindow (window_class (self s)) (window_name (self s)) in
  os _ lookup (world s) = (Ok 0, w1) ->
  (result (switch_to_game reliable os s) = Ok false /\
   window_controls (events (switch_to_game reliable os s)) = [] /\
   os_events (events (switch_to_game reliable os s)) = [Ev lookup (Ok 0)]) /\
  (result (get_resolution reliable os s) = Ok None /\
   geometry_queries (events (get_resolution reliable os s)) = [] /\
   os_events (events (get_resolution reliable os s)) = [Ev lookup (Ok 0)]).
Proof.
  intros lookup Hlookup. subst lookup.
  unfold_methods. cbn. rewrite Hlookup. cbn.
  destruct (logger (self s)); cbn; repeat split; reflexivity.
Qed.

(** C4. Let the lookup find a window (non-zero handle [hwnd]), and let
    the host answer the window calls.  [switch_to_game] first shows the
    window with command 9 (restore), then requests the foreground.
    - If that request is granted (non-zero answer), the method returns
      true and these were its only calls.
    - If it is refused (answer 0), the method shows the window with
      command 6 (minimize), then with command 9 (restore), and requests
      the foreground a second and last time.  Granted, the method returns
      true; refused again, the internal error is caught, logged at error
      level when a logger is present, and the method returns false.
    In each case the library calls of the run are exactly those listed,
    with the answers of the host, and the host is left as the last call
    left it. *)
Theorem focus_protocol (s : state W) (hwnd : Z) (w1 : W) :
  os _ (FindWindow (window_class (self s)) (window_name (self s))) (world s)
    = (Ok hwnd, w1) ->
  hwnd <> 0 ->
  let r := switch_to_game reliable os s in
  let lookup :=
    Ev (FindWindow (window_class (self s)) (window_name (self s))) (Ok hwnd) in
  forall a1 w2 g1 w3,
    os _ (ShowWindow hwnd 9) w1 = (Ok a1, w2) ->
    os _ (SetForegroundWindow hwnd) w2 = (Ok g1, w3) ->
    (g1 <> 0 ->
       result r = Ok true /\
       os_events (events r)
       = [lookup; Ev (ShowWindow hwnd 9) (Ok a1);
          Ev (SetForegroundWindow hwnd) (Ok g1)] /\
       world (final r) = w3) /\
    (g1 = 0 ->
       forall a2 w4 a3 w5 g2 w6,
         os _ (ShowWindow hwnd 6) w3 = (Ok a2, w4) ->
         os _ (ShowWindow hwnd 9) w4 = (Ok a3, w5) ->
         os _ (SetForegroundWindow hwnd) w5 = (Ok g2, w6) ->
         os_events (events r)
         = [lookup; Ev (ShowWindow hwnd 9) (Ok a1);
            Ev (SetForegroundWindow hwnd) (Ok 0);
            Ev (ShowWindow hwnd 6) (Ok a2);
            Ev (ShowWindow hwnd 9) (Ok a3);
            Ev (SetForegroundWindow hwnd) (Ok g2)] /\
         world (final r) = w6 /\
         (g2 <> 0 -> result r = Ok true) /\
         (g2 = 0 ->
            result r = Ok false /\
            log_lines (events r) =
              match logger (self s) with
              | Some _ =>
                  [(ERROR,
                    "激活游戏窗口时发生错误：Failed to set window foreground")]
              | None => []
              end)).
Proof.
  intros Hlookup Hfound r lookup a1 w2 g1 w3 Hshow Hfocus.
  subst r lookup.
  destruct s as [[gp pn wn wc lg] w0]. cbn in Hlookup |- *.
  apply Z.eqb_neq in Hfound.
  unfold_methods. unfold SW_RESTORE, SW_MINIMIZE.
  cbn. rewrite Hlookup. cbn. rewrite Hfound. cbn.
  rewrite Hshow. cbn. rewrite Hfocus. cbn.
  split.
  - intros Hg. apply Z.eqb_neq in Hg. rewrite Hg. cbn.
    destruct lg; cbn; repeat split.
  - intros ->. cbn.
    intros a2 w4 a3 w5 g2 w6 Hmin Hrestore Hretry.
    rewrite Hmin. cbn. rewrite Hrestore. cbn. rewrite Hretry. cbn.
    destruct (g2 =? 0) eqn:Hg2; cbn.
    + apply Z.eqb_eq in Hg2. subst g2.
      destruct lg; cbn; repeat split; first [reflexivity | congruence].
    + apply Z.eqb_neq in Hg2.
      destruct lg; cbn; repeat split; first [reflexivity | congruence].
Qed.

(** C6. With action ["Exit"] or ["Loop"], and any delay, the run of
    [shutdown] is the run of [stop_game] and nothing more: same trace, same
    final state, no shell command, no sleep, and the result is true whatever
    [stop_game] returned.  For every action and delay, the trace of
    [shutdown] begins with the trace of [stop_game]. *)
Theorem shutdown_without_power_action (s : state W) (action : string) (delay : Z) :
  In action ["Exit"; "Loop"] ->
  let r := shutdown reliable os action delay s in
  (result r = Ok true /\
   events r = events (stop_game reliable os s) /\
   final r = final (stop_game reliable os s) /\
   system_commands (events r) = [] /\
   sleeps (events r) = []) /\
  (forall action' delay', exists rest,
      events (shutdown reliable os action' delay' s)
      = (events (stop_game reliable os s) ++ rest)%list).
Proof.
  intros Hin r. subst r.
  destruct (stop_game_returns s) as [b Hb].
  assert (Hno : negb (str_in action power_actions) = true)
    by (destruct Hin as [<-|[<-|[]]]; reflexivity).
  split.
  - unfold shutdown. rewrite (bind_ok _ _ _ _ Hb), Hno.
    cbn [result events final ret]. rewrite app_nil_r.
    repeat split.
    + apply stop_game_no_shell.
    + apply stop_game_no_sleep.
  - intros action' delay'. unfold shutdown.
    rewrite (bind_ok _ _ _ _ Hb). cbn [events]. eexists. reflexivity.
Qed.

(** C3 (amended). For every non-negative delay, and in every run in which
    neither the delay sleep nor a power command raises: with action
    ["Sleep"], [shutdown] returns true and hands exactly three commands to
    the shell after the sleep has returned, in this order: hibernation off,
    suspend request, hibernation on; with action ["Shutdown"] or
    ["Hibernate"], exactly one command, after the sleep.  No shell command
    precedes the sleep. *)
Theorem shutdown_power_sequence (s : state W) (action : string) (delay : Z) :
  0 <= delay ->
  collect power_failure (events (shutdown reliable os action delay s)) = [] ->
  let r := shutdown reliable os action delay s in
  (action = "Sleep" ->
     result r = Ok true /\
     issued_after_delay delay
       ["powercfg -h off";
        "rundll32.exe powrprof.dll,SetSuspendState 0,1,0";
        "powercfg -h on"] (events r)) /\
  (action = "Shutdown" ->
     result r = Ok true /\
     issued_after_delay delay ["shutdown /s /t 0"] (events r)) /\
  (action = "Hibernate" ->
     result r = Ok true /\
     issued_after_delay delay ["shutdown /h"] (events r)).
Proof.
  intros Hdelay Hfail r. subst r.
  destruct (stop_game_returns s) as [b Hb].
  unfold shutdown in *. rewrite (bind_ok _ _ _ _ Hb) in *.
  pose proof (stop_game_no_shell s) as Hshell.
  pose proof (stop_game_no_power_failure s) as Hq.
  set (t0 := events (stop_game reliable os s)) in *.
  set (s1 := final (stop_game reliable os s)) in *.
  clearbody t0 s1. clear Hb b.
  apply Z.ltb_ge in Hdelay.
  destruct s1 as [[gp pn wn wc [l|]] w1].
  all: (split; [|split]); intros ->; revert Hfail.
  all: unfold_methods; cbn; rewrite Hdelay; cbn.
  all: repeat (os_step;
               [| intros H; exfalso; revert H;
                  rewrite ?collect_app, ?Hq; cbn; discriminate ]).
  all: intros _; split; [reflexivity|].
  all: match goal with a : unit |- _ => destruct a end.
  all: first [ apply (issued_after_delay_intro delay t0 [_])
             | apply (issued_after_delay_intro delay t0 []) ];
       solve [ exact Hshell | reflexivity ].
Qed.


(** ** The termination loop *)

(** One iteration: a process that fails either predicate receives no
    signal; one that passes both receives exactly one, unless opening the
    process handle already failed. *)
Lemma terminate_if_matching_step (target login : string) (timeout : Z)
      (owner : Z -> Res string) (p : process_info) (s : state W) :
  (forall pid w, fst (os _ (Username pid) w) = owner pid) ->
  let r := terminate_if_matching os target login timeout p s in
  if should_terminate target login owner p then
    (result r = Ok tt /\ terminated (events r) = [info_pid p]) \/
    (exists e, result r = Raise e /\
               (terminated (events r) = [] \/
                terminated (events r) = [info_pid p]))
  else terminated (events r) = [].
Proof.
  intros Hown r. subst r.
  unfold should_terminate, terminate_if_matching, name_contains.
  destruct (info_name p) as [name|]; cbn [andb]; [|reflexivity].
  destruct (PyStr.contains target name); cbn [andb]; [|reflexivity].
  unfold bind, perform, ret.
  pose proof (Hown (info_pid p) (world s)) as Ho.
  destruct (os _ (Username (info_pid p)) (world s)) as [[u|e] w1];
    cbn in Ho; rewrite <- Ho; cbn [owned_by]; [|reflexivity].
  destruct (String.eqb login (strip_domain u)); [|reflexivity].
  cbn.
  destruct (os _ (NewProcess (info_pid p)) w1) as [[[]|e] w2]; cbn;
    [|right; exists e; split; [reflexivity | left; reflexivity]].
  destruct (os _ (Terminate (info_pid p)) w2) as [[[]|e] w3]; cbn;
    [|right; exists e; split; [reflexivity | right; reflexivity]].
  destruct (os _ (Wait (info_pid p) timeout) w3) as [[code|e] w4]; cbn;
    [|right; exists e; split; [reflexivity | right; reflexivity]].
  left. split; reflexivity.
Qed.

Lemma terminate_loop_prefix (target login : string) (timeout : Z)
      (owner : Z -> Res string) (procs : list process_info) :
  (forall pid w, fst (os _ (Username pid) w) = owner pid) ->
  forall s,
    let r := for_each procs (terminate_if_matching os target login timeout) s in
    let matching :=
      map info_pid (filter (should_terminate target login owner) procs) in
    (exists n, terminated (events r) = firstn n matching) /\
    (result r = Ok tt -> terminated (events r) = matching).
Proof.
  intros Hown. induction procs as [|p ps IH]; intros s; cbv zeta.
  - cbn. split; [exists 0%nat; reflexivity | reflexivity].
  - cbn [for_each filter].
    pose proof (terminate_if_matching_step target login timeout owner p s Hown)
      as Hstep. cbv zeta in Hstep.
    destruct (result (terminate_if_matching os target login timeout p s))
      as [[]|e] eqn:Hres.
    + rewrite (bind_ok _ _ _ _ Hres). cbn [result events].
      unfold terminated in *. rewrite collect_app.
      destruct (IH (final (terminate_if_matching os target login timeout p s)))
        as [[n Hn] Hall].
      destruct (should_terminate target login owner p).
      * destruct Hstep as [[_ Hsig]|[e [Habs _]]]; [|discriminate].
        rewrite Hsig. cbn [map app]. split.
        -- exists (S n). cbn [firstn]. rewrite Hn. reflexivity.
        -- intros Hr. rewrite (Hall Hr). reflexivity.
      * rewrite Hstep. cbn [app]. split; [exists n; exact Hn | exact Hall].
    + rewrite (bind_raise _ _ _ _ Hres). cbn [result events].
      split; [|discriminate].
      destruct (should_terminate target login owner p).
      * destruct Hstep as [[Habs _]|[e' [_ [Hsig|Hsig]]]]; [discriminate| |];
          rewrite Hsig; [exists 0%nat | exists 1%nat]; reflexivity.
      * rewrite Hstep. exists 0%nat. reflexivity.
Qed.



(** ** [stop_game] against its termination loop *)

Lemma stop_game_run (s : state W) :
  let t := terminate_named_process os (process_name (self s)) 10 s in
  result (stop_game reliable os s) =
    Ok (match result t with Ok _ => true | Raise _ => false end) /\
  terminated (events (stop_game reliable os s)) = terminated (events t).
Proof.
  cbv zeta.
  unfold stop_game, try_except, log_info, log_error, bind, attr, emit, ret.
  cbn -[terminate_named_process].
  destruct (terminate_named_process os (process_name (self s)) 10 s)
    as [[[]|e] [[gp pn wn wc lg] w1] t1].
  all: cbn; destruct lg; cbn; unfold terminated; rewrite ?collect_app; cbn;
    rewrite ?app_nil_r; split; reflexivity.
Qed.

Lemma terminate_named_process_run (target : string) (timeout : Z)
      (s : state W) (login : string) (procs : list process_info) (w1 w2 : W) :
  os _ GetLogin (world s) = (Ok login, w1) ->
  os _ ProcessIter w1 = (Ok procs, w2) ->
  let loop := for_each procs (terminate_if_matching os target login timeout)
                       (MkState (self s) w2) in
  result (terminate_named_process os target timeout s) = result loop /\
  terminated (events (terminate_named_process os target timeout s))
  = terminated (events loop).
Proof.
  intros Hlogin Hiter. cbv zeta.
  unfold terminate_named_process, bind, perform.
  rewrite Hlogin. cbn -[for_each]. rewrite Hiter. cbn -[for_each].
  destruct (for_each procs _ _) as [r s2 t2]. split; reflexivity.
Qed.


(** The loop over a process table in which every name is readable and none
    contains the target. *)
Lemma terminate_loop_no_match (target login : string) (timeout : Z)
      (procs : list process_info) (s : state W) :
  forallb (fun p => match info_name p with
                    | Some name => negb (PyStr.contains target name)
                    | None => false
                    end) procs = true ->
  for_each procs (terminate_if_matching os target login timeout) s
  = MkRun (Ok tt) s [].
Proof.
  induction procs as [|p ps IH]; cbn [for_each forallb]; intros H.
  - reflexivity.
  - apply andb_true_iff in H. destruct H as [Hp Hps].
    unfold bind, terminate_if_matching at 1.
    destruct (info_name p) as [name|]; [|discriminate].
    apply negb_true_iff in Hp. rewrite Hp. cbn [ret].
    rewrite (IH Hps). reflexivity.
Qed.

(** C9. [stop_game] returns true exactly when [terminate_named_process]
    ran to its end without raising, and [terminate_named_process] has no
    other result than [None]; in particular, when the enumeration holds
    only processes with a readable name that does not contain the bound
    name, [stop_game] returns true and no process was signalled. *)
Theorem stop_game_true_without_signal (s : state W) (login : string)
        (procs : list process_info) (w1 w2 : W) :
  let t := terminate_named_process os (process_name (self s)) 10 s in
  (result t = Ok tt <-> result (stop_game reliable os s) = Ok true) /\
  (forall x, result t = Ok x -> x = tt) /\
  (os _ GetLogin (world s) = (Ok login, w1) ->
   os _ ProcessIter w1 = (Ok procs, w2) ->
   forallb (fun p => match info_name p with
                     | Some name =>
                         negb (PyStr.contains (process_name (self s)) name)
                     | None => false
                     end) procs = true ->
   result (stop_game reliable os s) = Ok true /\
   terminated (events (stop_game reliable os s)) = []).
Proof.
  cbv zeta. destruct (stop_game_run s) as [Hres Hsig]. rewrite Hres, Hsig.
  split; [|split].
  - destruct (result (terminate_named_process _ _ _ _)) as [[]|e];
      split; intros H; try reflexivity; discriminate.
  - intros []. reflexivity.
  - intros Hlogin Hiter Hnone.
    destruct (terminate_named_process_run (process_name (self s)) 10 s
                login procs w1 w2 Hlogin Hiter) as [Hr Ht].
    rewrite Hr, Ht, (terminate_loop_no_match _ _ _ _ _ Hnone).
    split; reflexivity.
Qed.

(** ** The controller object and the logger *)

Ltac frame_step :=
  first
    [ apply frame_ret
    | apply frame_raise
    | apply frame_attr
    | apply frame_emit
    | apply frame_perform
    | apply frame_bind; [|intro]
    | apply frame_try; [|intro]
    | apply frame_for_each; intro
    | match goal with
      | |- preserves_self (if ?b then _ else _) => destruct b
      | |- preserves_self (match ?o with Some _ => _ | None => _ end) =>
          destruct o
      | |- preserves_self (let '(_, _) := ?p in _) => destruct p
      end
    | progress unfold stop_game, terminate_named_process,
        terminate_if_matching ].

Ltac frame_auto :=
  unfold start_game, stop_game, switch_to_game, get_resolution, shutdown,
    terminate_named_process, terminate_if_matching,
    set_foreground_window_with_retry, toggle_window_state, time_sleep,
    log_debug, log_info, log_error, log_warning;
  repeat frame_step.

Ltac blind_step :=
  first
    [ apply blind_log; assumption
    | apply blind_ret
    | apply blind_raise
    | apply blind_attr; intro; reflexivity
    | apply blind_perform
    | apply blind_bind; [|intro]
    | apply blind_try; [|intro]
    | apply blind_for_each; intro
    | match goal with
      | |- logger_blind (if ?b then _ else _) => destruct b
      | |- logger_blind (match ?o with Some _ => _ | None => _ end) =>
          destruct o
      | |- logger_blind (let '(_, _) := ?p in _) => destruct p
      end
    | progress unfold stop_game, terminate_named_process,
        terminate_if_matching ].

Ltac blind_auto :=
  unfold start_game, stop_game, switch_to_game, get_resolution, shutdown,
    terminate_named_process, terminate_if_matching,
    set_foreground_window_with_retry, toggle_window_state, time_sleep;
  repeat blind_step.

Lemma start_game_blind (sink : Sink) :
  (forall l lvl m, sink l lvl m = None) -> logger_blind (start_game sink os).
Proof. intros Hsink. blind_auto. Qed.

Lemma stop_game_blind (sink : Sink) :
  (forall l lvl m, sink l lvl m = None) -> logger_blind (stop_game sink os).
Proof. intros Hsink. blind_auto. Qed.

Lemma switch_to_game_blind (sink : Sink) :
  (forall l lvl m, sink l lvl m = None) ->
  logger_blind (switch_to_game sink os).
Proof. intros Hsink. blind_auto. Qed.

Lemma get_resolution_blind (sink : Sink) :
  (forall l lvl m, sink l lvl m = None) ->
  logger_blind (get_resolution sink os).
Proof. intros Hsink. blind_auto. Qed.

Lemma shutdown_blind (sink : Sink) (action : string) (delay : Z) :
  (forall l lvl m, sink l lvl m = None) ->
  logger_blind (shutdown sink os action delay).
Proof. intros Hsink. blind_auto. Qed.

Lemma with_logger_same_identity (lg1 lg2 : option Logger) (s : state W) :
  same_identity (with_logger lg1 s) (with_logger lg2 s).
Proof. split; reflexivity. Qed.

(** C8. The constructor stores the process name, window title and window
    class as given and the executable path normalized; every public
    operation leaves the controller object, and so these four fields, as it
    found them, whatever the host and the logger do. *)
Theorem identity_is_immutable (normpath : string -> string)
        (path name title : string) (cls : option string)
        (lg : option Logger) (sink : Sink) (s : state W)
        (action : string) (delay : Z) :
  let c := __init__ normpath path name title cls lg in
  (game_path c = normpath path /\
   process_name c = name /\
   window_name c = title /\
   window_class c = cls) /\
  self (final (start_game sink os s)) = self s /\
  self (final (stop_game sink os s)) = self s /\
  self (final (switch_to_game sink os s)) = self s /\
  self (final (get_resolution sink os s)) = self s /\
  self (final (shutdown sink os action delay s)) = self s.
Proof.
  cbv zeta. split; [repeat split|].
  assert (H1 : preserves_self (start_game sink os)) by frame_auto.
  assert (H2 : preserves_self (stop_game sink os)) by frame_auto.
  assert (H3 : preserves_self (switch_to_game sink os)) by frame_auto.
  assert (H4 : preserves_self (get_resolution sink os)) by frame_auto.
  assert (H5 : preserves_self (shutdown sink os action delay)) by frame_auto.
  repeat split; [apply H1 | apply H2 | apply H3 | apply H4 | apply H5].
Qed.

(** C10 (amended). On a sink whose calls return, two runs of a public
    operation from states that differ only in the [logger] field, on the
    same host, return the same result: the logger may be absent or any
    logger of that sink. *)
Theorem result_independent_of_logger (sink : Sink) (s : state W)
        (lg1 lg2 : option Logger) (action : string) (delay : Z) :
  (forall l lvl m, sink l lvl m = None) ->
  let s1 := with_logger lg1 s in
  let s2 := with_logger lg2 s in
  result (start_game sink os s1) = result (start_game sink os s2) /\
  result (stop_game sink os s1) = result (stop_game sink os s2) /\
  result (switch_to_game sink os s1) = result (switch_to_game sink os s2) /\
  result (get_resolution sink os s1) = result (get_resolution sink os s2) /\
  result (shutdown sink os action delay s1)
  = result (shutdown sink os action delay s2).
Proof.
  intros Hsink. cbv zeta.
  pose proof (with_logger_same_identity lg1 lg2 s) as H.
  repeat split.
  - apply (start_game_blind sink Hsink _ _ H).
  - apply (stop_game_blind sink Hsink _ _ H).
  - apply (switch_to_game_blind sink Hsink _ _ H).
  - apply (get_resolution_blind sink Hsink _ _ H).
  - apply (shutdown_blind sink action delay Hsink _ _ H).
Qed.

End Methods.

(** * Runs on the simulated host *)

(** The game is installed on [Host.pc] and missing on [Host.uninstalled]. *)
Lemma start_game_spawn_policy_witness :
  (Host.os _ (PathExists "C:\Game\StarRail.exe") Host.pc = (Ok true, Host.pc) /\
   Host.os _ (System (start_command "C:\Game\StarRail.exe")) Host.pc
     = (Ok 0, Host.pc) /\
   Host.os _ (PathExists "C:\Game\StarRail.exe") Host.uninstalled
     = (Ok false, Host.uninstalled)) /\
  result (start_game reliable Host.os (Host.boot Host.pc None)) = Ok true /\
  (result (start_game reliable Host.os (Host.boot Host.uninstalled None))
     = Ok false /\
   system_commands
     (events (start_game reliable Host.os (Host.boot Host.uninstalled None)))
     = []).
Proof.
  split; [repeat split|]. split.
  - exact (proj1 (proj2 (start_game_spawn_policy Host.os
                           (Host.boot Host.pc None) true Host.pc eq_refl)
                        0 Host.pc eq_refl)).
  - destruct (start_game_spawn_policy Host.os
                (Host.boot Host.uninstalled None) false Host.uninstalled
                eq_refl) as [Hr [Hc _]].
    split; [exact Hr | exact Hc].
Defined.

Lemma absent_window_is_not_touched_witness :
  Host.os _ (FindWindow (Some "UnityWndClass") "Honkai: Star Rail") Host.idle
    = (Ok 0, Host.idle) /\
  (result (switch_to_game reliable Host.os (Host.boot Host.idle None)) = Ok false /\
   window_controls (events (switch_to_game reliable Host.os (Host.boot Host.idle None)))
     = []) /\
  (result (get_resolution reliable Host.os (Host.boot Host.idle None)) = Ok None /\
   geometry_queries (events (get_resolution reliable Host.os (Host.boot Host.idle None)))
     = []).
Proof.
  split; [reflexivity|].
  destruct (absent_window_is_not_touched Host.os (Host.boot Host.idle None)
              Host.idle eq_refl) as [[H1 [H2 _]] [H3 [H4 _]]].
  split; split; assumption.
Defined.

(** On [Host.pc] the first focus request is refused and the second granted. *)
Lemma focus_protocol_witness :
  (Host.os _ (FindWindow (Some "UnityWndClass") "Honkai: Star Rail") Host.pc
     = (Ok 4242, Host.pc) /\
   4242 <> 0 /\
   Host.os _ (ShowWindow 4242 9) Host.pc = (Ok 1, Host.pc) /\
   Host.os _ (SetForegroundWindow 4242) Host.pc = (Ok 0, Host.refocused) /\
   Host.os _ (ShowWindow 4242 6) Host.refocused = (Ok 1, Host.refocused) /\
   Host.os _ (ShowWindow 4242 9) Host.refocused = (Ok 1, Host.refocused) /\
   Host.os _ (SetForegroundWindow 4242) Host.refocused = (Ok 1, Host.focused)) /\
  result (switch_to_game reliable Host.os (Host.boot Host.pc None)) = Ok true /\
  world (final (switch_to_game reliable Host.os (Host.boot Host.pc None)))
    = Host.focused.
Proof.
  assert (Hfound : 4242 <> 0) by discriminate.
  assert (Hgranted : 1 <> 0) by discriminate.
  split; [repeat split; exact Hfound|].
  destruct (proj2 (focus_protocol Host.os (Host.boot Host.pc None) 4242 Host.pc
                     eq_refl Hfound 1 Host.pc 0 Host.refocused
                     eq_refl eq_refl)
                  eq_refl 1 Host.refocused 1 Host.refocused 1 Host.focused
                  eq_refl eq_refl eq_refl)
    as [_ [Hw [Hr _]]].
  split; [exact (Hr Hgranted) | exact Hw].
Defined.

Lemma shutdown_without_power_action_witness :
  In "Exit" ["Exit"; "Loop"] /\
  result (shutdown reliable Host.os "Exit" 60 (Host.boot Host.pc None)) = Ok true /\
  system_commands (events (shutdown reliable Host.os "Exit" 60 (Host.boot Host.pc None)))
    = [] /\
  sleeps (events (shutdown reliable Host.os "Exit" 60 (Host.boot Host.pc None))) = [].
Proof.
  assert (Hin : In "Exit" ["Exit"; "Loop"]) by (left; reflexivity).
  split; [exact Hin|].
  destruct (shutdown_without_power_action Host.os (Host.boot Host.pc None)
              "Exit" 60 Hin) as [[Hr [_ [_ [Hc Hs]]]] _].
  split; [exact Hr | split; [exact Hc | exact Hs]].
Defined.

Lemma shutdown_power_sequence_witness :
  (0 <= 0 /\
   collect power_failure
     (events (shutdown reliable Host.os "Sleep" 0 (Host.boot Host.pc None))) = []) /\
  result (shutdown reliable Host.os "Sleep" 0 (Host.boot Host.pc None)) = Ok true /\
  issued_after_delay 0
    ["powercfg -h off";
     "rundll32.exe powrprof.dll,SetSuspendState 0,1,0";
     "powercfg -h on"]
    (events (shutdown reliable Host.os "Sleep" 0 (Host.boot Host.pc None))).
Proof.
  assert (Hdelay : 0 <= 0) by lia.
  split; [split; [exact Hdelay | reflexivity]|].
  exact (proj1 (shutdown_power_sequence Host.os (Host.boot Host.pc None)
                  "Sleep" 0 Hdelay eq_refl) eq_refl).
Defined.


(** On [Host.idle] the game is not running. *)
Lemma stop_game_true_without_signal_witness :
  (Host.os _ GetLogin Host.idle = (Ok "trailblazer", Host.idle) /\
   Host.os _ ProcessIter Host.idle = (Ok (map fst (Host.table Host.idle)), Host.idle) /\
   forallb (fun p => match info_name p with
                     | Some name => negb (PyStr.contains "StarRail" name)
                     | None => false
                     end)
           (map fst (Host.table Host.idle)) = true) /\
  result (stop_game reliable Host.os (Host.boot Host.idle None)) = Ok true /\
  terminated (events (stop_game reliable Host.os (Host.boot Host.idle None))) = [].
Proof.
  split; [split; [reflexivity | split; reflexivity]|].
  exact (proj2 (proj2 (stop_game_true_without_signal Host.os
                         (Host.boot Host.idle None) "trailblazer"
                         (map fst (Host.table Host.idle)) Host.idle Host.idle))
               eq_refl eq_refl eq_refl).
Defined.

(** On a sink that returns, the result with the console logger is the
    result without a logger. *)
Lemma result_independent_of_logger_witness :
  (forall l lvl m, reliable l lvl m = None) /\
  result (start_game reliable Host.os (Host.boot Host.pc None))
  = result (start_game reliable Host.os (Host.boot Host.pc (Some Host.console))) /\
  result (shutdown reliable Host.os "Sleep" 0 (Host.boot Host.pc None))
  = result (shutdown reliable Host.os "Sleep" 0
                     (Host.boot Host.pc (Some Host.console))).
Proof.
  assert (Hsink : forall l lvl m, reliable l lvl m = None)
    by (intros l lvl m; reflexivity).
  split; [exact Hsink|].
  destruct (result_independent_of_logger Host.os reliable
              (Host.boot Host.pc None) None (Some Host.console) "Sleep" 0
              Hsink) as [H1 [_ [_ [_ H5]]]].
  split; [exact H1 | exact H5].
Defined.

(** ** Runs in which the code departs from the statements *)

(** C1. Exceptions that leave a public operation.  The geometry query
    fails with the error of the window library, which is no [IndexError]:
    [get_resolution] lets it through.  The same holds when the lookup
    itself fails, where [switch_to_game], on the same host, returns false.
    [time.sleep] rejects a negative delay outside the [try] of
    [shutdown]. *)
Lemma exceptions_escape :
  result (get_resolution reliable Host.os (Host.boot Host.closing None))
    = Raise (MkExn PywinError "(1400, 'GetClientRect', 'Invalid window handle.')") /\
  (result (get_resolution reliable Scenario.lookup_raises (Host.boot Host.idle None))
     = Raise (MkExn PywinError "(2, 'FindWindow', 'The system cannot find the file specified.')") /\
   result (switch_to_game reliable Scenario.lookup_raises (Host.boot Host.idle None))
     = Ok false) /\
  result (shutdown reliable Host.os "Sleep" (-1) (Host.boot Host.pc None))
    = Raise (MkExn ValueError "sleep length must be non-negative").
Proof. repeat split; reflexivity. Qed.


(** A process whose name psutil could not read ends the loop as well,
    although no library call raised: process 102 is not reached. *)
Example unreadable_name_ends_the_loop :
  result (stop_game reliable Host.os (Host.boot Host.guarded None)) = Ok false /\
  terminated (events (stop_game reliable Host.os (Host.boot Host.guarded None)))
    = [100] /\
  os_events (events (stop_game reliable Host.os (Host.boot Host.guarded None)))
    = [Ev GetLogin (Ok "trailblazer");
       Ev ProcessIter (Ok (map fst (Host.table Host.guarded)));
       Ev (Username 100) (Ok "DESKTOP\trailblazer");
       Ev (NewProcess 100) (Ok tt);
       Ev (Terminate 100) (Ok tt);
       Ev (Wait 100 10) (Ok (Some 0))].
Proof. repeat split; reflexivity. Qed.

(** C3. With delay [-1] no power command is issued at all. *)
Lemma negative_delay_issues_nothing :
  system_commands (events (shutdown reliable Host.os "Sleep" (-1) (Host.boot Host.pc None)))
    = [] /\
  system_commands (events (shutdown reliable Host.os "Shutdown" (-1) (Host.boot Host.pc None)))
    = [] /\
  result (shutdown reliable Host.os "Sleep" (-1) (Host.boot Host.pc None))
    = Raise (MkExn ValueError "sleep length must be non-negative").
Proof. repeat split; reflexivity. Qed.

(** C10. A sink that raises makes the result depend on the logger:
    without a logger [start_game] and [stop_game] return true; with the
    console logger the exception of the sink leaves [start_game], and
    leaves [stop_game] from its handler. *)
Lemma raising_sink_changes_the_result :
  (result (start_game Scenario.broken Host.os (Host.boot Host.pc None)) = Ok true /\
   result (start_game Scenario.broken Host.os
                      (Host.boot Host.pc (Some Host.console)))
     = Raise (MkExn OSError "[Errno 28] No space left on device")) /\
  (result (stop_game Scenario.broken Host.os (Host.boot Host.pc None)) = Ok true /\
   result (stop_game Scenario.broken Host.os
                     (Host.boot Host.pc (Some Host.console)))
     = Raise (MkExn OSError "[Errno 28] No space left on device")).
Proof. repeat split; reflexivity. Qed.

(** * Further properties of the methods *)

Section Further.

Context {W : Type}.
Variable os : OS W.

Ltac next_call :=
  match goal with
  | |- context [os ?X ?c ?w] =>
      let a := fresh "a" in
      let e := fresh "e" in
      let w' := fresh "w" in
      let E := fresh "E" in
      destruct (os X c w) as [[a|e] w'] eqn:E; cbn
  end.

Ltac open_methods :=
  unfold start_game, stop_game, switch_to_game, get_resolution, shutdown,
    set_foreground_window_with_retry, toggle_window_state, time_sleep,
    log_debug, log_info, log_error, log_warning,
    try_except, bind, attr, perform, emit, ret, raise.

Ltac still_step :=
  first
    [ apply quiet_ret
    | apply quiet_raise
    | apply quiet_attr
    | apply quiet_emit; reflexivity
    | apply quiet_perform; intros [?|?]; reflexivity
    | apply quiet_bind; [|intro]
    | apply quiet_try; [|intro]
    | apply quiet_for_each; intro
    | match goal with
      | |- quiet _ (if ?b then _ else _) => destruct b
      | |- quiet _ (match ?o with Some _ => _ | None => _ end) => destruct o
      | |- quiet _ (let '(_, _) := ?p in _) => destruct p
      end ].

Ltac still :=
  unfold start_game, stop_game, switch_to_game, get_resolution,
    terminate_named_process, terminate_if_matching,
    set_foreground_window_with_retry, toggle_window_state,
    log_debug, log_info, log_error, log_warning;
  repeat still_step.

(** X1. When the lookup finds a window and the geometry query answers
    [(left, top, right, bottom)], [get_resolution] returns
    [(right, bottom)], has queried the geometry of that handle once, and
    has logged nothing. *)
Theorem get_resolution_reads_client_size (s : state W) (hwnd : Z) (w1 w2 : W)
        (left top right bottom : Z) :
  os _ (FindWindow (window_class (self s)) (window_name (self s))) (world s)
    = (Ok hwnd, w1) ->
  hwnd <> 0 ->
  os _ (GetClientRect hwnd) w1 = (Ok (left, top, right, bottom), w2) ->
  let r := get_resolution reliable os s in
  result r = Ok (Some (right, bottom)) /\
  geometry_queries (events r) = [hwnd] /\
  log_lines (events r) = [] /\
  world (final r) = w2.
Proof.
  intros Hlookup Hfound Hrect r. subst r.
  apply Z.eqb_neq in Hfound.
  open_methods. cbn. rewrite Hlookup. cbn. rewrite Hfound. cbn.
  rewrite Hrect. cbn. repeat split.
Qed.

(** X2. [get_resolution] only looks: in no run does it show, minimize or
    focus a window, signal a process, run a shell command or sleep. *)
Theorem get_resolution_is_read_only (s : state W) :
  let t := events (get_resolution reliable os s) in
  window_controls t = [] /\
  terminated t = [] /\
  system_commands t = [] /\
  sleeps t = [].
Proof.
  cbv zeta.
  assert (H1 : quiet window_control_of (get_resolution reliable os)) by still.
  assert (H2 : quiet terminated_pid (get_resolution reliable os)) by still.
  assert (H3 : quiet system_command (get_resolution reliable os)) by still.
  assert (H4 : quiet slept (get_resolution reliable os)) by still.
  repeat split; [apply H1 | apply H2 | apply H3 | apply H4].
Qed.

(** X3. Any action other than exactly ["Shutdown"], ["Hibernate"] or
    ["Sleep"] (the comparison is case sensitive) is a no-op that reports
    success: [shutdown] stops the game, issues no power command, does not
    sleep and returns true. *)
Theorem shutdown_unknown_action_succeeds (s : state W) (action : string)
        (delay : Z) :
  action <> "Shutdown" -> action <> "Hibernate" -> action <> "Sleep" ->
  let r := shutdown reliable os action delay s in
  result r = Ok true /\
  events r = events (stop_game reliable os s) /\
  system_commands (events r) = [] /\
  sleeps (events r) = [].
Proof.
  intros H1 H2 H3 r. subst r.
  apply String.eqb_neq in H1, H2, H3.
  assert (Hno : negb (str_in action power_actions) = true)
    by (unfold str_in, power_actions; cbn [existsb];
        rewrite H1, H2, H3; reflexivity).
  destruct (stop_game_returns os s) as [b Hb].
  unfold shutdown. rewrite (bind_ok _ _ _ _ Hb), Hno.
  cbn [result events final ret]. rewrite app_nil_r.
  repeat split.
  - apply stop_game_no_shell.
  - apply stop_game_no_sleep.
Qed.

(** X4. With action ["Sleep"], the shell commands stop at the first one
    that raises.  A run issues none (the delay sleep raised), or hibernation
    off alone, or hibernation off and the suspend request, or all three; it
    returns true only when all three returned.  When the suspend request
    raises, hibernation is not switched back on. *)
Theorem sleep_stops_at_first_failure (s : state W) (delay : Z) :
  let r := shutdown reliable os "Sleep" delay s in
  let off := "powercfg -h off" in
  let suspend := "rundll32.exe powrprof.dll,SetSuspendState 0,1,0" in
  let on := "powercfg -h on" in
  (shell_calls (events r) = [] /\ exists e, result r = Raise e) \/
  (shell_calls (events r) = [(off, false)] /\ result r = Ok false) \/
  (shell_calls (events r) = [(off, true); (suspend, false)] /\
   result r = Ok false) \/
  (shell_calls (events r) = [(off, true); (suspend, true); (on, false)] /\
   result r = Ok false) \/
  (shell_calls (events r) = [(off, true); (suspend, true); (on, true)] /\
   result r = Ok true).
Proof.
  cbv zeta.
  destruct (stop_game_returns os s) as [b Hb].
  unfold shutdown. rewrite (bind_ok _ _ _ _ Hb).
  assert (Hq : quiet shell_call (stop_game reliable os)) by still.
  specialize (Hq s).
  set (t0 := events (stop_game reliable os s)) in *.
  set (s1 := final (stop_game reliable os s)) in *.
  clearbody t0 s1. clear Hb b.
  destruct s1 as [[gp pn wn wc lg] w1].
  open_methods. cbn.
  unfold shell_calls.
  destruct (delay <? 0); cbn.
  { left. destruct lg; cbn; rewrite ?collect_app, Hq; cbn;
      (split; [reflexivity | eexists; reflexivity]). }
  destruct lg as [l|]; cbn.
  all: next_call;
    [| left; rewrite ?collect_app, Hq; cbn;
       split; [reflexivity | eexists; reflexivity] ].
  all: next_call;
    [| right; left; rewrite ?collect_app, Hq; cbn; split; reflexivity ].
  all: next_call;
    [| right; right; left; rewrite ?collect_app, Hq; cbn; split; reflexivity ].
  all: next_call;
    [| right; right; right; left; rewrite ?collect_app, Hq; cbn;
       split; reflexivity ].
  all: right; right; right; right; rewrite ?collect_app, Hq; cbn;
    split; reflexivity.
Qed.

(** X5. When [os.getlogin] raises, [stop_game] returns false after that
    single call: the processes are not enumerated and none is touched.
    With a logger, the error line carries the text of the exception. *)
Theorem stop_game_without_login (s : state W) (e : exn) (w1 : W) :
  os _ GetLogin (world s) = (Raise e, w1) ->
  let r := stop_game reliable os s in
  result r = Ok false /\
  os_events (events r) = [Ev GetLogin (Raise e)] /\
  log_lines (events r) =
    match logger (self s) with
    | Some _ => [(ERROR, "终止游戏时发生错误：" ++ str_exn e)]
    | None => []
    end.
Proof.
  intros Hlogin r. subst r.
  destruct s as [[gp pn wn wc lg] w0]. cbn in Hlogin.
  unfold stop_game, terminate_named_process. open_methods. cbn.
  rewrite Hlogin. cbn.
  destruct lg; cbn; repeat split.
Qed.

(** X6. When the window lookup itself raises, [switch_to_game] returns
    false without any window-control call; with a logger, the line is at
    error level and carries the text of the exception. *)
Theorem switch_to_game_lookup_raises (s : state W) (e : exn) (w1 : W) :
  os _ (FindWindow (window_class (self s)) (window_name (self s))) (world s)
    = (Raise e, w1) ->
  let r := switch_to_game reliable os s in
  result r = Ok false /\
  window_controls (events r) = [] /\
  log_lines (events r) =
    match logger (self s) with
    | Some _ => [(ERROR, "激活游戏窗口时发生错误：" ++ str_exn e)]
    | None => []
    end.
Proof.
  intros Hlookup r. subst r.
  destruct s as [[gp pn wn wc lg] w0]. cbn in Hlookup.
  open_methods. cbn. rewrite Hlookup. cbn.
  destruct lg; cbn; repeat split.
Qed.

(** ** The owner name *)

(** X7. The name compared with the login is what follows the last
    backslash of the owner string that psutil reported: it contains no
    backslash, and the owner string is either that name alone or some
    domain prefix, a backslash, and that name. *)
Theorem strip_domain_keeps_last_component (owner : string) :
  let backslash := ascii_of_nat 92 in
  PyStr.has_char backslash (strip_domain owner) = false /\
  (owner = strip_domain owner \/
   exists domain, owner = domain ++ String backslash (strip_domain owner)).
Proof.
  cbv zeta. change (ascii_of_nat 92) with PyStr.backslash_char.
  destruct (PyStr.has_char PyStr.backslash_char owner) eqn:Hhas.
  - destruct (last_occurrence _ _ Hhas) as [d [u [Hs Hu]]].
    subst owner. rewrite (strip_domain_qualified d u Hu).
    split; [exact Hu | right; exists d; reflexivity].
  - rewrite (strip_domain_plain owner Hhas).
    split; [exact Hhas | left; reflexivity].
Qed.

(** ** Which processes are looked at *)

Lemma contains_empty (h : string) : PyStr.contains "" h = true.
Proof. destruct h; reflexivity. Qed.

(** The run of the loop that returns has met readable names only. *)
Lemma terminate_loop_names (target login : string) (timeout : Z)
      (procs : list process_info) (s : state W) :
  result (for_each procs (terminate_if_matching os target login timeout) s)
  = Ok tt ->
  forall p, In p procs -> info_name p <> None.
Proof.
  revert s. induction procs as [|p ps IH]; intros s Hok q Hq; [destruct Hq|].
  cbn [for_each] in Hok.
  destruct (result (terminate_if_matching os target login timeout p s))
    as [[]|e] eqn:Hres.
  - rewrite (bind_ok _ _ _ _ Hres) in Hok. cbn [result] in Hok.
    destruct Hq as [<-|Hq]; [|exact (IH _ Hok q Hq)].
    intros Hnone. unfold terminate_if_matching in Hres.
    rewrite Hnone in Hres. discriminate Hres.
  - rewrite (bind_raise _ _ _ _ Hres) in Hok. discriminate Hok.
Qed.

(** X8. An empty bound process name is contained in every name: when
    [stop_game] returns true it has signalled every enumerated process
    owned by the current user. *)
Theorem empty_process_name_matches_all (s : state W) (login : string)
        (procs : list process_info) (owner : Z -> Res string) (w1 w2 : W) :
  process_name (self s) = "" ->
  os _ GetLogin (world s) = (Ok login, w1) ->
  os _ ProcessIter w1 = (Ok procs, w2) ->
  (forall pid w, fst (os _ (Username pid) w) = owner pid) ->
  result (stop_game reliable os s) = Ok true ->
  terminated (events (stop_game reliable os s))
  = map info_pid
        (filter (fun p => owned_by login (owner (info_pid p))) procs).
Proof.
  intros Hname Hlogin Hiter Hown Htrue.
  destruct (stop_game_run os s) as [Hres Hsig].
  rewrite Hsig. rewrite Hres in Htrue.
  destruct (terminate_named_process_run os (process_name (self s)) 10 s
              login procs w1 w2 Hlogin Hiter) as [Hr Ht].
  rewrite Ht. rewrite Hr in Htrue.
  destruct (terminate_loop_prefix os (process_name (self s)) login 10 owner
              procs Hown (MkState (self s) w2)) as [_ Hall].
  assert (Hok : result (for_each procs
                          (terminate_if_matching os (process_name (self s))
                                                 login 10)
                          (MkState (self s) w2)) = Ok tt)
    by (destruct (result (for_each procs _ _)) as [[]|e];
        [reflexivity | discriminate]).
  rewrite (Hall Hok), Hname. f_equal. apply filter_ext_in. intros p Hp.
  pose proof (terminate_loop_names _ _ _ _ _ Hok p Hp) as Hreadable.
  unfold should_terminate, name_contains.
  destruct (info_name p) as [name|]; [|contradiction].
  rewrite contains_empty. reflexivity.
Qed.

Lemma owner_query_step (target login : string) (timeout : Z)
      (p : process_info) (s : state W) :
  owner_queries (events (terminate_if_matching os target login timeout p s))
  = if name_contains target (info_name p) then [info_pid p] else [].
Proof.
  unfold terminate_if_matching, name_contains.
  destruct (info_name p) as [name|]; [|reflexivity].
  destruct (PyStr.contains target name); [|reflexivity].
  unfold bind, perform, ret.
  destruct (os _ (Username (info_pid p)) (world s)) as [[u|e] w1];
    [|reflexivity].
  destruct (String.eqb login (strip_domain u)); [|reflexivity].
  cbn.
  destruct (os _ (NewProcess (info_pid p)) w1) as [[[]|e] w2]; cbn;
    [|reflexivity].
  destruct (os _ (Terminate (info_pid p)) w2) as [[[]|e] w3]; cbn;
    [|reflexivity].
  destruct (os _ (Wait (info_pid p) timeout) w3) as [[code|e] w4];
    reflexivity.
Qed.

Lemma owner_query_loop (target login : string) (timeout : Z)
      (procs : list process_info) (s : state W) :
  prefix_of
    (owner_queries
       (events (for_each procs (terminate_if_matching os target login timeout) s)))
    (map info_pid
         (filter (fun p => name_contains target (info_name p)) procs)).
Proof.
  revert s. induction procs as [|p ps IH]; intros s.
  - exists 0%nat. reflexivity.
  - cbn [for_each filter].
    pose proof (owner_query_step target login timeout p s) as Hstep.
    destruct (result (terminate_if_matching os target login timeout p s))
      as [[]|e] eqn:Hres.
    + rewrite (bind_ok _ _ _ _ Hres). cbn [events].
      unfold owner_queries in *. rewrite collect_app, Hstep.
      destruct (IH (final (terminate_if_matching os target login timeout p s)))
        as [n Hn].
      rewrite Hn.
      destruct (name_contains target (info_name p));
        [exists (S n) | exists n]; reflexivity.
    + rewrite (bind_raise _ _ _ _ Hres). cbn [events].
      rewrite Hstep.
      destruct (name_contains target (info_name p));
        [exists 1%nat | exists 0%nat]; reflexivity.
Qed.

(** What [stop_game] adds to its termination loop is logging only. *)
Lemma stop_game_observes {B} (f : event -> option B) (s : state W) :
  (forall lg lvl message, f (Log lg lvl message) = None) ->
  collect f (events (stop_game reliable os s))
  = collect f (events (terminate_named_process os (process_name (self s)) 10 s)).
Proof.
  intros Hlog.
  unfold stop_game, try_except, log_info, log_error, bind, attr, emit, ret.
  cbn -[terminate_named_process].
  destruct (terminate_named_process os (process_name (self s)) 10 s)
    as [[[]|e] [[gp pn wn wc lg] w1] t1].
  all: cbn; destruct lg; cbn; rewrite ?collect_app; cbn;
    rewrite ?Hlog, ?app_nil_r; reflexivity.
Qed.

(** X9. [stop_game] asks for the owner of a process only if the name of
    the process is readable and contains the bound name: the pids whose
    owner is queried are an initial segment of the name-matching pids, in
    enumeration order. *)
Theorem owner_queried_only_for_matching_names (s : state W) (login : string)
        (procs : list process_info) (w1 w2 : W) :
  os _ GetLogin (world s) = (Ok login, w1) ->
  os _ ProcessIter w1 = (Ok procs, w2) ->
  prefix_of
    (owner_queries (events (stop_game reliable os s)))
    (map info_pid
         (filter (fun p => name_contains (process_name (self s)) (info_name p))
                 procs)).
Proof.
  intros Hlogin Hiter.
  unfold owner_queries.
  rewrite stop_game_observes by reflexivity.
  unfold terminate_named_process, bind, perform.
  rewrite Hlogin. cbn -[for_each]. rewrite Hiter. cbn -[for_each].
  pose proof (owner_query_loop (process_name (self s)) login 10 procs
                (MkState (self s) w2)) as Hloop.
  unfold owner_queries in Hloop.
  destruct (for_each procs _ _) as [r s2 t2]. cbn. exact Hloop.
Qed.

(** ** Opening, signalling and waiting *)

Lemma prefix_of_nil {A} (l : list A) : prefix_of [] l.
Proof. exists 0%nat. reflexivity. Qed.

Lemma prefix_of_refl {A} (l : list A) : prefix_of l l.
Proof. exists (length l). symmetry. apply firstn_all. Qed.

Lemma prefix_of_app {A} (l0 l1 l2 : list A) :
  prefix_of l1 l2 -> prefix_of (l0 ++ l1) (l0 ++ l2).
Proof.
  intros [n ->]. exists (length l0 + n)%nat.
  rewrite firstn_app_2. reflexivity.
Qed.

Lemma orderly_intro_silent {A} (timeout : Z) (m : M W A) :
  quiet opened_pid m -> quiet terminated_pid m -> quiet waited m ->
  orderly timeout m.
Proof.
  intros Ho Ht Hw s. cbv zeta. unfold terminated, opened, waits.
  rewrite (Ho s), (Ht s), (Hw s). cbn.
  repeat split; apply prefix_of_nil.
Qed.

Lemma orderly_bind {A C} (timeout : Z) (m : M W A) (k : A -> M W C) :
  orderly timeout m -> (forall a, orderly timeout (k a)) ->
  orderly timeout (bind m k).
Proof.
  intros Hm Hk s. specialize (Hm s). cbv zeta in *. unfold bind.
  destruct (m s) as [[a|e] s1 t1]; cbn in *.
  - destruct Hm as [_ [_ Hfull]].
    destruct (Hfull a eq_refl) as [Hto Hwt].
    specialize (Hk a s1). cbv zeta in Hk.
    destruct (k a s1) as [r s2 t2]. cbn in *.
    destruct Hk as [Hp [Hq Hfull2]].
    unfold terminated, opened, waits in *.
    rewrite !collect_app, map_app, Hwt, <- Hto.
    split; [apply prefix_of_app; exact Hp|].
    split; [apply prefix_of_app; exact Hq|].
    intros c Hr. destruct (Hfull2 c Hr) as [H1 H2].
    rewrite H2, <- H1. split; reflexivity.
  - destruct Hm as [Hp [Hq _]].
    split; [exact Hp|]. split; [exact Hq | discriminate].
Qed.

Lemma orderly_for_each {A} (timeout : Z) (xs : list A) (body : A -> M W unit) :
  (forall x, orderly timeout (body x)) -> orderly timeout (for_each xs body).
Proof.
  intros H. induction xs as [|x xs IH]; cbn [for_each].
  - apply orderly_intro_silent; intros s; reflexivity.
  - apply orderly_bind; [apply H | intros _; exact IH].
Qed.

Lemma orderly_iteration (target login : string) (timeout : Z)
      (p : process_info) :
  orderly timeout (terminate_if_matching os target login timeout p).
Proof.
  intros s. cbv zeta. unfold terminate_if_matching.
  destruct (info_name p) as [name|];
    [|cbn; repeat split; try apply prefix_of_nil; discriminate].
  destruct (PyStr.contains target name);
    [|cbn; repeat split; apply prefix_of_nil].
  unfold bind, perform, ret.
  destruct (os _ (Username (info_pid p)) (world s)) as [[u|e] w1];
    [|cbn; repeat split; try apply prefix_of_nil; discriminate].
  destruct (String.eqb login (strip_domain u));
    [|cbn; repeat split; apply prefix_of_nil].
  cbn.
  destruct (os _ (NewProcess (info_pid p)) w1) as [[[]|e] w2]; cbn;
    [|repeat split; try apply prefix_of_nil; discriminate].
  destruct (os _ (Terminate (info_pid p)) w2) as [[[]|e] w3]; cbn;
    [|repeat split;
      try apply prefix_of_nil; try apply prefix_of_refl; discriminate].
  destruct (os _ (Wait (info_pid p) timeout) w3) as [[code|e] w4]; cbn;
    repeat split;
    try apply prefix_of_nil; try apply (prefix_of_refl [_]); discriminate.
Qed.

Lemma orderly_terminate_named_process (target : string) (timeout : Z) :
  orderly timeout (terminate_named_process os target timeout).
Proof.
  unfold terminate_named_process.
  apply orderly_bind.
  - apply orderly_intro_silent; apply quiet_perform; intros [?|?]; reflexivity.
  - intros login. apply orderly_bind.
    + apply orderly_intro_silent; apply quiet_perform; intros [?|?];
        reflexivity.
    + intros procs. apply orderly_for_each. intros p.
      apply orderly_iteration.
Qed.

(** X10. In every run of [stop_game], a process is signalled only through
    a handle opened just before, and waited for only after it was
    signalled, always with the timeout of 10 seconds: the signalled pids
    are an initial segment of the opened ones, and the waits an initial
    segment of the signalled pids paired with 10. *)
Theorem stop_game_waits_for_what_it_signals (s : state W) :
  let t := events (stop_game reliable os s) in
  prefix_of (terminated t) (opened t) /\
  prefix_of (waits t) (map (fun pid => (pid, 10)) (terminated t)).
Proof.
  cbv zeta. unfold terminated, opened, waits.
  rewrite !stop_game_observes by reflexivity.
  destruct (orderly_terminate_named_process (process_name (self s)) 10 s)
    as [Hp [Hq _]].
  split; [exact Hp | exact Hq].
Qed.

(** ** Logging *)

Lemma mute_ret {A} (a : A) : mute (@ret W A a).
Proof. intros s H. split; [reflexivity | exact H]. Qed.

Lemma mute_raise {A} (e : exn) : mute (@raise W A e).
Proof. intros s H. split; [reflexivity | exact H]. Qed.

Lemma mute_attr {A} (field : GameController -> A) : mute (@attr W A field).
Proof. intros s H. split; [reflexivity | exact H]. Qed.

Lemma mute_perform {X} (c : os_call X) : mute (perform os c).
Proof.
  intros s H. unfold perform. destruct (os X c (world s)) as [r w'].
  split; [reflexivity | exact H].
Qed.

Lemma mute_log (sink : Sink) (lvl : level) (message : string) :
  mute (W := W)
    (bind (attr logger)
          (fun lg => match lg with
                     | Some l => emit sink l lvl message
                     | None => ret tt
                     end)).
Proof.
  intros s H. unfold bind, attr, emit, ret. cbn. rewrite H. cbn.
  split; [reflexivity | exact H].
Qed.

Lemma mute_bind {A C} (m : M W A) (k : A -> M W C) :
  mute m -> (forall a, mute (k a)) -> mute (bind m k).
Proof.
  intros Hm Hk s H. unfold bind.
  destruct (Hm s H) as [Hl Hn].
  destruct (m s) as [[a|e] s1 t1]; cbn in *.
  - destruct (Hk a s1 Hn) as [Hl' Hn'].
    destruct (k a s1) as [r s2 t2]. cbn in *.
    unfold log_lines in *. rewrite collect_app, Hl, Hl'.
    split; [reflexivity | exact Hn'].
  - split; [exact Hl | exact Hn].
Qed.

Lemma mute_try {A} (body : M W A) (clause : except_clause)
      (handler : exn -> M W A) :
  mute body -> (forall e, mute (handler e)) ->
  mute (try_except body clause handler).
Proof.
  intros Hb Hh s H. unfold try_except.
  destruct (Hb s H) as [Hl Hn].
  destruct (body s) as [[a|e] s1 t1]; cbn in *.
  - split; [exact Hl | exact Hn].
  - destruct (caught_by clause e); cbn; [|split; [exact Hl | exact Hn]].
    destruct (Hh e s1 Hn) as [Hl' Hn'].
    destruct (handler e s1) as [r s2 t2]. cbn in *.
    unfold log_lines in *. rewrite collect_app, Hl, Hl'.
    split; [reflexivity | exact Hn'].
Qed.

Lemma mute_for_each {A} (xs : list A) (body : A -> M W unit) :
  (forall x, mute (body x)) -> mute (for_each xs body).
Proof.
  intros H. induction xs as [|x xs IH]; cbn [for_each].
  - apply mute_ret.
  - apply mute_bind; [apply H | intros _; exact IH].
Qed.

Ltac mute_step :=
  first
    [ apply mute_log
    | apply mute_ret
    | apply mute_raise
    | apply mute_attr
    | apply mute_perform
    | apply mute_bind; [|intro]
    | apply mute_try; [|intro]
    | apply mute_for_each; intro
    | match goal with
      | |- mute (if ?b then _ else _) => destruct b
      | |- mute (match ?o with Some _ => _ | None => _ end) => destruct o
      | |- mute (let '(_, _) := ?p in _) => destruct p
      end
    | progress unfold stop_game, terminate_named_process,
        terminate_if_matching ].

Ltac mute_all :=
  unfold start_game, stop_game, switch_to_game, get_resolution, shutdown,
    terminate_named_process, terminate_if_matching,
    set_foreground_window_with_retry, toggle_window_state, time_sleep;
  repeat mute_step.

(** X11. A controller built without a logger logs nothing: no run of a
    public operation contains a log line, on any sink. *)
Theorem no_logger_no_log_line (sink : Sink) (s : state W) (action : string)
        (delay : Z) :
  let s0 := with_logger None s in
  log_lines (events (start_game sink os s0)) = [] /\
  log_lines (events (stop_game sink os s0)) = [] /\
  log_lines (events (switch_to_game sink os s0)) = [] /\
  log_lines (events (get_resolution sink os s0)) = [] /\
  log_lines (events (shutdown sink os action delay s0)) = [].
Proof.
  cbv zeta.
  assert (H1 : mute (start_game sink os)) by mute_all.
  assert (H2 : mute (stop_game sink os)) by mute_all.
  assert (H3 : mute (switch_to_game sink os)) by mute_all.
  assert (H4 : mute (get_resolution sink os)) by mute_all.
  assert (H5 : mute (shutdown sink os action delay)) by mute_all.
  repeat split;
    [ apply H1 | apply H2 | apply H3 | apply H4 | apply H5 ]; reflexivity.
Qed.

(** X12. On a sink whose calls return, the logger changes nothing
    outside the log: from two states that differ only in the logger,
    every public operation makes the same library calls with the same
    answers and leaves the host in the same state. *)
Theorem logger_does_not_change_the_calls (sink : Sink) (s : state W)
        (lg1 lg2 : option Logger) (action : string) (delay : Z) :
  (forall l lvl m, sink l lvl m = None) ->
  let s1 := with_logger lg1 s in
  let s2 := with_logger lg2 s in
  let same {A} (m : M W A) :=
    os_events (events (m s1)) = os_events (events (m s2)) /\
    world (final (m s1)) = world (final (m s2)) in
  same (start_game sink os) /\
  same (stop_game sink os) /\
  same (switch_to_game sink os) /\
  same (get_resolution sink os) /\
  same (shutdown sink os action delay).
Proof.
  intros Hsink. cbv zeta.
  pose proof (with_logger_same_identity lg1 lg2 s) as H.
  destruct (start_game_blind os sink Hsink _ _ H) as [_ [E1 [_ W1]]].
  destruct (stop_game_blind os sink Hsink _ _ H) as [_ [E2 [_ W2]]].
  destruct (switch_to_game_blind os sink Hsink _ _ H) as [_ [E3 [_ W3]]].
  destruct (get_resolution_blind os sink Hsink _ _ H) as [_ [E4 [_ W4]]].
  destruct (shutdown_blind os sink action delay Hsink _ _ H)
    as [_ [E5 [_ W5]]].
  repeat split; assumption.
Qed.

Lemma terminate_named_process_frame (target : string) (timeout : Z) :
  preserves_self (terminate_named_process os target timeout).
Proof.
  unfold terminate_named_process.
  apply frame_bind; [apply frame_perform | intros login].
  apply frame_bind; [apply frame_perform | intros procs].
  apply frame_for_each. intros p. unfold terminate_if_matching.
  destruct (info_name p) as [name|]; [|apply frame_raise].
  destruct (PyStr.contains target name); [|apply frame_ret].
  apply frame_bind; [apply frame_perform | intros u].
  destruct (String.eqb login (strip_domain u)); [|apply frame_ret].
  repeat (apply frame_bind; [apply frame_perform | intros ?]).
  apply frame_ret.
Qed.

Lemma terminate_named_process_logs_nothing (target : string) (timeout : Z) :
  quiet logged (terminate_named_process os target timeout).
Proof. still. Qed.

(** X13. With a logger, [start_game], [stop_game] and [switch_to_game]
    account for every outcome with exactly one log line: info level when
    they return true, error or debug level when they return false.  A run
    of [start_game] that raises has logged nothing. *)
Theorem one_log_line_per_outcome (s : state W) (l : Logger) :
  let s1 := with_logger (Some l) s in
  logged_once (start_game reliable os s1) /\
  logged_once (stop_game reliable os s1) /\
  logged_once (switch_to_game reliable os s1).
Proof.
  cbv zeta. destruct s as [[gp pn wn wc lg] w0].
  unfold logged_once, with_logger, set_logger. cbn [self world game_path
    process_name window_name window_class logger].
  split; [|split].
  - open_methods. cbn.
    next_call; [|reflexivity].
    destruct a; cbn; [|eexists; left; reflexivity].
    next_call; [|reflexivity].
    destruct (a =? 0); cbn;
      [eexists; reflexivity | eexists; left; reflexivity].
  - pose proof (terminate_named_process_frame pn 10
                  (MkState (MkController gp pn wn wc (Some l)) w0)) as Hf.
    pose proof (terminate_named_process_logs_nothing pn 10
                  (MkState (MkController gp pn wn wc (Some l)) w0)) as Hq.
    unfold stop_game, try_except, log_info, log_error, bind, attr, emit, ret.
    cbn -[terminate_named_process].
    destruct (terminate_named_process os pn 10 _)
      as [[[]|e] [c w1] t1]; cbn in Hf, Hq; subst c; cbn;
      unfold log_lines; rewrite ?collect_app, Hq; cbn.
    + eexists; reflexivity.
    + eexists; left; reflexivity.
  - open_methods. cbn.
    next_call; [|eexists; left; reflexivity].
    destruct (a =? 0); cbn; [eexists; right; reflexivity|].
    next_call; [|eexists; left; reflexivity].
    next_call; [|eexists; left; reflexivity].
    destruct (a1 =? 0); cbn; [|eexists; reflexivity].
    next_call; [|eexists; left; reflexivity].
    next_call; [|eexists; left; reflexivity].
    next_call; [|eexists; left; reflexivity].
    destruct (a4 =? 0); cbn;
      [eexists; left; reflexivity | eexists; reflexivity].
Qed.

End Further.

(** ** Further runs on the simulated host *)

Lemma get_resolution_reads_client_size_witness :
  (Host.os _ (FindWindow (Some "UnityWndClass") "Honkai: Star Rail") Host.pc
     = (Ok 4242, Host.pc) /\
   4242 <> 0 /\
   Host.os _ (GetClientRect 4242) Host.pc = (Ok (0, 0, 1920, 1080), Host.pc)) /\
  result (get_resolution reliable Host.os (Host.boot Host.pc None))
    = Ok (Some (1920, 1080)).
Proof.
  assert (Hfound : 4242 <> 0) by discriminate.
  split; [split; [reflexivity | split; [exact Hfound | reflexivity]]|].
  exact (proj1 (get_resolution_reads_client_size Host.os
                  (Host.boot Host.pc None) 4242 Host.pc Host.pc 0 0 1920 1080
                  eq_refl Hfound eq_refl)).
Defined.

(** A lower-case action is not a power action. *)
Lemma shutdown_unknown_action_succeeds_witness :
  ("sleep" <> "Shutdown" /\ "sleep" <> "Hibernate" /\ "sleep" <> "Sleep") /\
  result (shutdown reliable Host.os "sleep" 60 (Host.boot Host.pc None)) = Ok true /\
  system_commands (events (shutdown reliable Host.os "sleep" 60 (Host.boot Host.pc None)))
    = [].
Proof.
  assert (H1 : "sleep" <> "Shutdown") by discriminate.
  assert (H2 : "sleep" <> "Hibernate") by discriminate.
  assert (H3 : "sleep" <> "Sleep") by discriminate.
  split; [split; [exact H1 | split; [exact H2 | exact H3]]|].
  destruct (shutdown_unknown_action_succeeds Host.os (Host.boot Host.pc None)
              "sleep" 60 H1 H2 H3) as [Hr [_ [Hc _]]].
  split; [exact Hr | exact Hc].
Defined.

Lemma stop_game_without_login_witness :
  Scenario.no_login _ GetLogin Host.pc
    = (Raise (MkExn OSError "[Errno 6] No such device or address"), Host.pc) /\
  result (stop_game reliable Scenario.no_login (Host.boot Host.pc None)) = Ok false /\
  os_events (events (stop_game reliable Scenario.no_login (Host.boot Host.pc None)))
    = [Ev GetLogin (Raise (MkExn OSError "[Errno 6] No such device or address"))].
Proof.
  split; [reflexivity|].
  destruct (stop_game_without_login Scenario.no_login (Host.boot Host.pc None)
              (MkExn OSError "[Errno 6] No such device or address") Host.pc
              eq_refl) as [Hr [He _]].
  split; [exact Hr | exact He].
Defined.

Lemma switch_to_game_lookup_raises_witness :
  Scenario.lookup_raises _
    (FindWindow (Some "UnityWndClass") "Honkai: Star Rail") Host.idle
    = (Raise (MkExn PywinError "(2, 'FindWindow', 'The system cannot find the file specified.')"),
       Host.idle) /\
  result (switch_to_game reliable Scenario.lookup_raises (Host.boot Host.idle None))
    = Ok false /\
  window_controls
    (events (switch_to_game reliable Scenario.lookup_raises (Host.boot Host.idle None)))
    = [].
Proof.
  split; [reflexivity|].
  destruct (switch_to_game_lookup_raises Scenario.lookup_raises
              (Host.boot Host.idle None)
              (MkExn PywinError "(2, 'FindWindow', 'The system cannot find the file specified.')")
              Host.idle eq_refl) as [Hr [Hc _]].
  split; [exact Hr | exact Hc].
Defined.

(** With an empty bound name, the explorer of the current user goes too. *)
Lemma empty_process_name_matches_all_witness :
  (process_name Scenario.nameless = "" /\
   Host.frozen Host.pc _ GetLogin tt = (Ok "trailblazer", tt) /\
   Host.frozen Host.pc _ ProcessIter tt
     = (Ok (map fst (Host.table Host.pc)), tt) /\
   (forall pid w,
       fst (Host.frozen Host.pc _ (Username pid) w) = Host.owner Host.pc pid) /\
   result (stop_game reliable (Host.frozen Host.pc) (MkState Scenario.nameless tt))
     = Ok true) /\
  terminated (events (stop_game reliable (Host.frozen Host.pc)
                                (MkState Scenario.nameless tt)))
    = [100; 102; 103].
Proof.
  assert (Hown : forall pid w,
             fst (Host.frozen Host.pc _ (Username pid) w)
             = Host.owner Host.pc pid) by (intros pid w; reflexivity).
  split; [repeat split; exact Hown|].
  exact (empty_process_name_matches_all (Host.frozen Host.pc)
           (MkState Scenario.nameless tt) "trailblazer"
           (map fst (Host.table Host.pc)) (Host.owner Host.pc) tt tt
           eq_refl eq_refl eq_refl Hown eq_refl).
Defined.

Lemma owner_queried_only_for_matching_names_witness :
  (Host.os _ GetLogin Host.pc = (Ok "trailblazer", Host.pc) /\
   Host.os _ ProcessIter Host.pc = (Ok (map fst (Host.table Host.pc)), Host.pc)) /\
  prefix_of
    (owner_queries (events (stop_game reliable Host.os (Host.boot Host.pc None))))
    [100; 101; 102].
Proof.
  split; [split; reflexivity|].
  exact (owner_queried_only_for_matching_names Host.os (Host.boot Host.pc None)
           "trailblazer" (map fst (Host.table Host.pc)) Host.pc Host.pc
           eq_refl eq_refl).
Defined.

Lemma logger_does_not_change_the_calls_witness :
  (forall l lvl m, reliable l lvl m = None) /\
  os_events (events (stop_game reliable Host.os (Host.boot Host.pc None)))
  = os_events (events (stop_game reliable Host.os
                                 (Host.boot Host.pc (Some Host.console)))) /\
  world (final (shutdown reliable Host.os "Sleep" 0 (Host.boot Host.pc None)))
  = world (final (shutdown reliable Host.os "Sleep" 0
                           (Host.boot Host.pc (Some Host.console)))).
Proof.
  assert (Hsink : forall l lvl m, reliable l lvl m = None)
    by (intros l lvl m; reflexivity).
  split; [exact Hsink|].
  destruct (logger_does_not_change_the_calls Host.os reliable
              (Host.boot Host.pc None) None (Some Host.console) "Sleep" 0
              Hsink) as [_ [[H2 _] [_ [_ [_ H5]]]]].
  split; [exact H2 | exact H5].
Defined.

(** On a host where the suspend request cannot be dispatched, hibernation
    stays switched off. *)
Example suspend_failure_leaves_hibernation_off :
  shell_calls
    (events (shutdown reliable Scenario.suspend_fails "Sleep" 0 (Host.boot Host.pc None)))
  = [("powercfg -h off", true);
     ("rundll32.exe powrprof.dll,SetSuspendState 0,1,0", false)] /\
  result (shutdown reliable Scenario.suspend_fails "Sleep" 0 (Host.boot Host.pc None))
  = Ok false.
Proof. split; reflexivity. Qed.
